(** * The HSRL L1B demonstration notebook and its HTML conversion script

    A shallow embedding of [examples/read_display_uw_hsrl_scanning.ipynb]
    (the code cells, in the order of the notebook) and of the shell script
    that renders the notebook with [jupyter nbconvert], followed by the
    properties of both.

    The notebook is Python glue over [urllib], [pathlib], [xarray] and
    [hvplot]/[holoviews].  Its code cells are written here in an
    exception-and-state monad over a file system; every call into a library
    is logged in a trace and may raise.  What the libraries do is described
    by the handlers of section [Cells], after their documentation; what the
    notebook does with them is taken from the cells. *)

From Stdlib Require Import ZArith QArith Qabs List String Ascii.
From stdpp Require Import base option list gmap strings.

Open Scope string_scope.
Open Scope Z_scope.

(** ** Numbers held by the arrays *)

(** A floating-point array element: a finite number or NaN.  Ordering
    comparisons with NaN are false, as in IEEE 754. *)
Inductive fp : Type :=
  | NaN
  | Fin (q : Q).

Definition Qlt_bool (x y : Q) : bool := negb (Qle_bool y x).

(** [a < b] and [a <= b] on array elements. *)
Definition fp_lt (a b : fp) : bool :=
  match a, b with
  | Fin x, Fin y => Qlt_bool x y
  | _, _ => false
  end.

Definition fp_le (a b : fp) : bool :=
  match a, b with
  | Fin x, Fin y => Qle_bool x y
  | _, _ => false
  end.

Global Instance Q_eq_dec : EqDecision Q.
Proof. solve_decision. Defined.

(** ** Labelled arrays

    An element of a labelled array carries the labels of its position
    along the array's dimensions ([index], dimension name to label), the
    values of the auxiliary coordinates at that position ([aux], e.g. the
    two-dimensional [distance] and [altitude] coordinates of the scanning
    group), and the element itself. *)
Record sample : Type := {
  index : gmap string Q;
  aux : gmap string fp;
  value : fp
}.

(** A variable of a dataset: its attributes, the names of its dimensions
    and its elements. *)
Record variable : Type := {
  attrs : gmap string string;
  dims : list string;
  samples : list sample
}.

(** A netCDF4 group: its coordinates and its data variables, by name. *)
Record group_data : Type := {
  g_coords : gmap string variable;
  g_vars : gmap string variable
}.

(** An opened dataset: the group it was read from, its coordinates and
    its data variables. *)
Record xr_dataset : Type := {
  ds_group : string;
  ds_coords : gmap string variable;
  ds_vars : gmap string variable
}.

(** A DataArray: a named variable taken out of a dataset, with the
    coordinates it carries (the name of each and its dimensions). *)
Record dataarray : Type := {
  da_group : string;
  da_name : string;
  da_var : variable;
  da_coords : gmap string (list string)
}.

(** What a path of the file system holds: a netCDF4 file with its groups,
    or something that is not a netCDF4 file. *)
Inductive content : Type :=
  | NetCDF (groups : gmap string group_data)
  | NotNetCDF.

(** ** Python values passed as keyword arguments *)
#[warnings="-register-all"]
Inductive pyval : Type :=
  | VStr (s : string)
  | VBool (b : bool)
  | VNum (q : Q)
  | VNone
  | VTuple (l : list pyval)
  | VList (l : list pyval).

Definition kwargs : Type := list (string * pyval).

(** The method of the [hvplot] accessor that is called: the accessor
    itself, [.quadmesh] or [.scatter]. *)
Inductive plot_kind : Type := Default | Quadmesh | Scatter.

Global Instance plot_kind_eq_dec : EqDecision plot_kind.
Proof. solve_decision. Defined.

(** A holoviews element returned by [hvplot]. *)
Record plot : Type := {
  p_kind : plot_kind;
  p_group : string;
  p_name : string;
  p_kwargs : kwargs;
  p_title : option string
}.

(** A holoviews layout, built with [+]. *)
Record layout : Type := {
  l_plots : list plot;
  l_title : option string;
  l_cols : option Z
}.

(** The value of the last expression of a cell, displayed as its output. *)
Inductive output : Type :=
  | OutDataset (group : string)
  | OutPlot (p : plot)
  | OutLayout (l : layout).

(** ** Exceptions *)
Inductive exn : Type :=
  | ImportError (module : string)
  | RuntimeError (msg : string)
  | URLError (url : string)
  | TypeError (msg : string)
  | KeyError (key : string)
  | AttributeError (name : string)
  | FileNotFoundError (p : string)
  | OSError (msg : string)
  | DataError (not_found : list string)
  | OtherError (code : Z).

(** ** Library calls and the world around the notebook *)

(** The message printed after a download:
    ["Downloaded {:.1f} GB of data to file {:s}."], with the number of
    tenths of a GB that [{:.1f}] shows. *)
Record message : Type := {
  msg_gb_tenths : Z;
  msg_path : string
}.

Inductive call : Type :=
  | CImport (module : string)
  | CExists (p : string)
  | CUrlretrieve (url filename : string)
  | CPrint (m : message)
  | COpenDataset (p group : string)
  | CDisplay (o : output)
  | CExtension (backend : string)
  | CSetConfig (name : string) (v : pyval)
  | COptsDefaults (element : string) (kw : kwargs)
  | CHvplot (kind : plot_kind) (group name : string) (kw : kwargs)
  | COpts (title : string)
  | CCols (n : Z)
  | CSel (dim : string) (label : Q) (method : string)
  | CWhere (drop : bool)
  | CMean (dims : list string) (keep_attrs : bool).

(** The answer of the remote server to a download: the body and the
    value of the [Content-Length] header read as an integer ([None] when
    the header is absent, in which case [int(None)] raises; a header that
    is present is taken to hold an integer). *)
Record response : Type := {
  body : content;
  content_length : option Z
}.

(** What the notebook does not control, as it is during one run: the
    remote server, and whether a library call fails.  [fault n c] is the
    exception, if any, that the [n]-th library call of a run raises when
    that call is [c].  What the libraries do may itself depend on the
    environment the run is started in (proxy settings, the module search
    path): see [World] below. *)
Record Lib : Type := {
  remote : string -> option response;
  fault : nat -> call -> option exn
}.

(** The operating system's view of the user: the environment variables
    and the home directory recorded in the password database. *)
Record OS : Type := {
  environ : gmap string string;
  pw_dir : option string
}.

(** An entry of the trace: a library call and the file system it was
    made in. *)
Record entry : Type := {
  at_fs : gmap string content;
  the_call : call
}.

Record State : Type := {
  fs : gmap string content;
  trace : list entry
}.

Definition init (f : gmap string content) : State :=
  {| fs := f; trace := [] |}.

Definition calls (st : State) : list call := the_call <$> trace st.

Inductive result (A : Type) : Type :=
  | Ok (a : A)
  | Raised (e : exn).
Arguments Ok {A} a.
Arguments Raised {A} e.

(** ** The monad of the cells: state and exceptions *)

Definition M (A : Type) : Type := State -> result A * State.

Global Instance M_ret : MRet M := λ A a st, (Ok a, st).

Global Instance M_bind : MBind M := λ A B k m st,
  match m st with
  | (Ok a, st') => k a st'
  | (Raised e, st') => (Raised e, st')
  end.

Definition raise {A : Type} (e : exn) : M A := λ st, (Raised e, st).

Definition get_fs : M (gmap string content) := λ st, (Ok (fs st), st).

Definition write_file (p : string) (c : content) : M unit := λ st,
  (Ok (), {| fs := <[p := c]> (fs st); trace := trace st |}).

(** ** Pure helpers of Python's standard library *)

Definition slash : ascii := "/"%char.

Fixpoint drop_slashes (l : list ascii) : list ascii :=
  match l with
  | c :: r => if Ascii.eqb c slash then drop_slashes r else l
  | [] => []
  end.

(** [s.rstrip("/")] *)
Definition rstrip_slash (s : string) : string :=
  string_of_list_ascii (rev (drop_slashes (rev (list_ascii_of_string s)))).

(** [PurePath(s).name]: the last component of [s]; empty components and
    ["."] components do not count.  [cur] is the component being read and
    [last] the last complete one. *)
Fixpoint name_from (s : string) (cur last : string) : string :=
  match s with
  | EmptyString =>
      if bool_decide (cur = "" ∨ cur = ".") then last else cur
  | String c r =>
      if Ascii.eqb c slash
      then name_from r "" (if bool_decide (cur = "" ∨ cur = ".") then last else cur)
      else name_from r (cur +:+ String c "") last
  end.

Definition path_name (s : string) : string := name_from s "" "".

(** [str(Path(d) / n)] for a directory [d] without trailing slash;
    pathlib's normalisation of [d] itself (repeated slashes, ["."]
    components) is left out. *)
Definition joinpath (d n : string) : string :=
  if bool_decide (d = "/") then "/" +:+ n else d +:+ "/" +:+ n.

Definition starts_with_tilde (s : string) : bool :=
  match s with
  | String c _ => Ascii.eqb c "~"%char
  | EmptyString => false
  end.

(** [Path("~/").expanduser()]: [posixpath.expanduser("~")] takes the home
    directory from the environment variable [HOME] when it is set and from
    the password database otherwise, strips its trailing slashes and falls
    back to ["/"]; [Path.expanduser] raises when no home directory is
    found. *)
Definition expanduser (os : OS) : result string :=
  let userhome :=
    match environ os !! "HOME" with
    | Some h => Some h
    | None => pw_dir os
    end in
  match userhome with
  | None => Raised (RuntimeError "Could not determine home directory.")
  | Some h =>
      let d := rstrip_slash h in
      let d := if bool_decide (d = "") then "/" else d in
      if starts_with_tilde d
      then Raised (RuntimeError "Could not determine home directory.")
      else Ok d
  end.

(** [s.replace("_", " ")] *)
Fixpoint replace_underscore (s : string) : string :=
  match s with
  | EmptyString => EmptyString
  | String c r =>
      String (if Ascii.eqb c "_"%char then " "%char else c) (replace_underscore r)
  end.

(** [round(n / 1024**3, 1)] in tenths, for [0 <= n < 2^53] (a file of
    less than 8 PiB): there [n / 2^30] is exact in binary floating point,
    and [round] rounds half to even. *)
Definition gb_tenths (n : Z) : Z :=
  let q := (10 * n) / 2 ^ 30 in
  let r := (10 * n) mod 2 ^ 30 in
  if 2 * r <? 2 ^ 30 then q
  else if 2 ^ 30 <? 2 * r then q + 1
  else if Z.even q then q else q + 1.

(** ** Array operations of xarray (pure part) *)

(** A boolean array used as a condition: the names of its dimensions and
    its value at the position of an element. *)
Record mask : Type := {
  m_dims : list string;
  m_pred : sample -> bool
}.

(** The value of the coordinate [name] at the position of [s]. *)
Definition coord_at (name : string) (s : sample) : fp :=
  default NaN (aux s !! name).

(** [c < da], [da <= c] and [m1 & m2], elementwise. *)
Definition lt_da (c : Q) (da : dataarray) : mask :=
  {| m_dims := dims (da_var da);
     m_pred := λ s, fp_lt (Fin c) (coord_at (da_name da) s) |}.

Definition da_le (da : dataarray) (c : Q) : mask :=
  {| m_dims := dims (da_var da);
     m_pred := λ s, fp_le (coord_at (da_name da) s) (Fin c) |}.

Definition mask_and (m1 m2 : mask) : mask :=
  {| m_dims := m_dims m1 ++ m_dims m2;
     m_pred := λ s, m_pred m1 s && m_pred m2 s |}.

(** The labels along [d] at which the condition holds somewhere. *)
Definition kept_labels (m : mask) (l : list sample) (d : string) : list Q :=
  omap (λ s, index s !! d) (filter (λ s, m_pred m s = true) l).

(** [s] survives [drop=True]: along every dimension of the condition its
    label is one at which the condition holds somewhere. *)
Definition survives (m : mask) (l : list sample) (s : sample) : bool :=
  forallb
    (λ d, match index s !! d with
          | Some x => bool_decide (x ∈ kept_labels m l d)
          | None => true
          end)
    (m_dims m).

Definition mask_value (m : mask) (s : sample) : sample :=
  {| index := index s; aux := aux s;
     value := if m_pred m s then value s else NaN |}.

(** [v.where(m, drop=drop)]: elements at which the condition is false
    become NaN; with [drop], labels at which the condition is false
    everywhere are removed.  Attributes are kept. *)
Definition where_var (m : mask) (drop : bool) (v : variable) : variable :=
  {| attrs := attrs v;
     dims := dims v;
     samples :=
       mask_value m <$>
         (if drop
          then filter (λ s, survives m (samples v) s = true) (samples v)
          else samples v) |}.

(** [Dataset.where]: the data variables are masked; coordinates keep
    their values and lose the dropped labels. *)
Definition where_ds (m : mask) (drop : bool) (ds : xr_dataset) : xr_dataset :=
  {| ds_group := ds_group ds;
     ds_coords :=
       (λ v, {| attrs := attrs v; dims := dims v;
                samples := if drop
                           then filter (λ s, survives m (samples v) s = true) (samples v)
                           else samples v |}) <$> ds_coords ds;
     ds_vars := where_var m drop <$> ds_vars ds |}.

Definition Qsum (l : list Q) : Q := foldr Qplus 0%Q l.

Definition finite_values (l : list sample) : list Q :=
  omap (λ s, match value s with Fin q => Some q | NaN => None end) l.

(** The mean of the elements that are not NaN ([skipna]); NaN when there
    is none. *)
Definition nanmean (l : list sample) : fp :=
  match finite_values l with
  | [] => NaN
  | qs => Fin (Qsum qs / inject_Z (Z.of_nat (length qs)))
  end.

(** The position of an element once the dimensions [ds] are reduced. *)
Definition reduced_index (ds : list string) (s : sample) : gmap string Q :=
  foldr delete (index s) ds.

Definition group_of (ds : list string) (k : gmap string Q) (l : list sample)
  : list sample :=
  filter (λ s, reduced_index ds s = k) l.

(** [v.mean(dim=ds, keep_attrs=keep)]: one element per position along the
    remaining dimensions, the mean of the elements reduced to it. *)
Definition mean_var (ds : list string) (keep : bool) (v : variable) : variable :=
  {| attrs := if keep then attrs v else ∅;
     dims := filter (λ d, d ∉ ds) (dims v);
     samples :=
       (λ k, {| index := k; aux := ∅; value := nanmean (group_of ds k (samples v)) |})
         <$> remove_dups (reduced_index ds <$> samples v) |}.

(** [Dataset.mean]: every data variable is reduced; coordinates along a
    reduced dimension are dropped. *)
Definition mean_ds (ds : list string) (keep : bool) (d : xr_dataset) : xr_dataset :=
  {| ds_group := ds_group d;
     ds_coords := filter (λ kv, Forall (λ x, x ∉ ds) (dims kv.2)) (ds_coords d);
     ds_vars := mean_var ds keep <$> ds_vars d |}.

Definition Qabs_diff (x y : Q) : Q := Qabs (x - y).

(** The label nearest to [x]; ties go to the larger label (pandas'
    ["nearest"]). *)
Definition nearer (x : Q) (best cand : Q) : Q :=
  if Qlt_bool (Qabs_diff cand x) (Qabs_diff best x) then cand
  else if Qeq_bool (Qabs_diff cand x) (Qabs_diff best x)
       then (if Qlt_bool best cand then cand else best)
       else best.

Definition nearest (x : Q) (labels : list Q) : option Q :=
  match labels with
  | [] => None
  | l :: r => Some (fold_left (nearer x) r l)
  end.

(** [v.sel(dim=x, method="nearest")]: the elements at the label nearest to
    [x]; the dimension becomes a scalar coordinate. *)
Definition sel_nearest (dim : string) (x : Q) (v : variable) : option variable :=
  l ← nearest x (omap (λ s, index s !! dim) (samples v));
  Some {| attrs := attrs v;
          dims := filter (λ d, d ≠ dim) (dims v);
          samples :=
            (λ s, {| index := delete dim (index s); aux := aux s; value := value s |})
              <$> filter (λ s, index s !! dim = Some l) (samples v) |}.

(** ** Library calls *)

Section Cells.

Context (lib : Lib).

(** A library call: it is appended to the trace with the file system it
    sees, and raises when the library fails on it. *)
Definition perform (c : call) : M unit := λ st,
  let st' := {| fs := fs st;
                trace := trace st ++ [{| at_fs := fs st; the_call := c |}] |} in
  match fault lib (length (trace st)) c with
  | Some e => (Raised e, st')
  | None => (Ok (), st')
  end.

Definition lift {A : Type} (r : result A) : M A := λ st, (r, st).

(** [import m] *)
Definition import_ (m : string) : M unit := perform (CImport m).

(** [Path(p).exists()] *)
Definition path_exists (p : string) : M bool :=
  perform (CExists p);;
  f ← get_fs;
  mret (bool_decide (is_Some (f !! p))).

(** [urllib.request.urlretrieve(url, filename)]: the body is written to
    [filename]; the headers are returned. *)
Definition urlretrieve (url filename : string) : M (option Z) :=
  perform (CUrlretrieve url filename);;
  match remote lib url with
  | None => raise (URLError url)
  | Some r => write_file filename (body r);; mret (content_length r)
  end.

(** [int(header_obj["Content-Length"])] *)
Definition py_int (h : option Z) : M Z :=
  match h with
  | Some n => mret n
  | None => raise (TypeError "int() argument must be a string, a bytes-like object or a real number, not 'NoneType'")
  end.

Definition print (m : message) : M unit := perform (CPrint m).

(** [xr.open_dataset(p, group=g)] *)
Definition open_dataset (p g : string) : M xr_dataset :=
  perform (COpenDataset p g);;
  f ← get_fs;
  match f !! p with
  | None => raise (FileNotFoundError p)
  | Some NotNetCDF => raise (OSError "NetCDF: Unknown file format")
  | Some (NetCDF groups) =>
      match groups !! g with
      | None => raise (OSError "group not found")
      | Some gd =>
          mret {| ds_group := g; ds_coords := g_coords gd; ds_vars := g_vars gd |}
      end
  end.

(** The value of the last expression of a cell is displayed. *)
Definition display (o : output) : M unit := perform (CDisplay o).

(** The coordinates that an array taken out of [ds] carries: those of the
    dataset that lie along dimensions of the array. *)
Definition coords_along (ds : xr_dataset) (v : variable) : gmap string (list string) :=
  dims <$> filter (λ kv, Forall (λ d, d ∈ dims v) (dims kv.2)) (ds_coords ds).

Definition array_of (ds : xr_dataset) (name : string) (v : variable) : dataarray :=
  {| da_group := ds_group ds; da_name := name; da_var := v;
     da_coords := coords_along ds v |}.

(** [ds.name]: a data variable or a coordinate of the dataset. *)
Definition getvar (ds : xr_dataset) (name : string) : M dataarray :=
  match ds_vars ds !! name with
  | Some v => mret (array_of ds name v)
  | None =>
      match ds_coords ds !! name with
      | Some v => mret (array_of ds name v)
      | None => raise (AttributeError name)
      end
  end.

(** [da.attrs[key]] *)
Definition getattr (da : dataarray) (key : string) : M string :=
  match attrs (da_var da) !! key with
  | Some s => mret s
  | None => raise (KeyError key)
  end.

(** The value given for the keyword [key]. *)
Fixpoint kw_get (kw : kwargs) (key : string) : option pyval :=
  match kw with
  | [] => None
  | (k, v) :: r => if String.eqb k key then Some v else kw_get r key
  end.

(** The names given for the axes of a plot with [x=] and [y=]. *)
Definition axis_names (kw : kwargs) : list string :=
  omap (λ key, match kw_get kw key with Some (VStr s) => Some s | _ => None end)
    ["x"; "y"].

(** [name] is a dimension or a coordinate of the array. *)
Definition known (da : dataarray) (name : string) : Prop :=
  name ∈ dims (da_var da) ∨ is_Some (da_coords da !! name).

(** The axes asked for that the array does not have. *)
Definition not_found (da : dataarray) (kw : kwargs) : list string :=
  filter (λ name, ¬ known da name) (axis_names kw).

(** [da.hvplot(...)], [da.hvplot.quadmesh(...)], [da.hvplot.scatter(...)]
    with keyword arguments [kw]: the plotting library rejects an axis
    that is neither a dimension nor a coordinate of the array.  (Which
    exception it does so with, holoviews' [DataError] or a look-up error
    of hvplot, is the library's business; it is written [DataError]
    here.) *)
Definition hvplot (kind : plot_kind) (da : dataarray) (kw : kwargs) : M plot :=
  perform (CHvplot kind (da_group da) (da_name da) kw);;
  match not_found da kw with
  | [] => mret {| p_kind := kind; p_group := da_group da; p_name := da_name da;
                  p_kwargs := kw; p_title := None |}
  | names => raise (DataError names)
  end.

(** [p.opts(title=t)] on an element *)
Definition opts_plot (p : plot) (t : string) : M plot :=
  perform (COpts t);;
  mret {| p_kind := p_kind p; p_group := p_group p; p_name := p_name p;
          p_kwargs := p_kwargs p; p_title := Some t |}.

(** [p1 + p2 + ...] *)
Definition layout_of (ps : list plot) : layout :=
  {| l_plots := ps; l_title := None; l_cols := None |}.

(** [l.opts(title=t)] on a layout *)
Definition opts_layout (l : layout) (t : string) : M layout :=
  perform (COpts t);;
  mret {| l_plots := l_plots l; l_title := Some t; l_cols := l_cols l |}.

(** [l.cols(n)] *)
Definition cols (l : layout) (n : Z) : M layout :=
  perform (CCols n);;
  mret {| l_plots := l_plots l; l_title := l_title l; l_cols := Some n |}.

(** [da.sel(dim=x, method="nearest")]: the coordinates of the array are
    selected with it. *)
Definition sel (da : dataarray) (dim : string) (x : Q) : M dataarray :=
  perform (CSel dim x "nearest");;
  match sel_nearest dim x (da_var da) with
  | Some v => mret {| da_group := da_group da; da_name := da_name da; da_var := v;
                      da_coords := filter (λ d, d ≠ dim) <$> da_coords da |}
  | None => raise (KeyError dim)
  end.

(** [ds.where(m, drop=drop)] *)
Definition where_ (ds : xr_dataset) (m : mask) (drop : bool) : M xr_dataset :=
  perform (CWhere drop);;
  mret (where_ds m drop ds).

(** [ds.mean(dim=dims, keep_attrs=keep)] *)
Definition mean (ds : xr_dataset) (dims : list string) (keep : bool) : M xr_dataset :=
  perform (CMean dims keep);;
  mret (mean_ds dims keep ds).

(** ** The code cells of the notebook

    Cells are numbered by their position in the notebook (markdown cells
    included), so the code cells are 1, 3, 5, ..., 17.  A variable that a
    later cell reads is returned by the cell that assigns it. *)

(** *** Cell 1: download *)

(** The remote URL of the sample L1B file *)
Definition remote_l1b_url_str : string :=
  "https://ftp.ssec.wisc.edu/pub/incoming/"
  +:+ "bagohsrl_20230814T000000_20230815T000000_30.0s_7.5m_1.0deg_L1B_preliminary.nc".

(** [Path("~/").expanduser() / Path(remote_l1b_url_str).name] *)
Definition l1b_path (os : OS) : result string :=
  match expanduser os with
  | Ok home => Ok (joinpath home (path_name remote_l1b_url_str))
  | Raised e => Raised e
  end.

(** If the file has not been downloaded yet, download it and print how
    big it is. *)
Definition download_step (l1b_fileP : string) : M unit :=
  present ← path_exists l1b_fileP;
  if (present : bool) then mret ()
  else
    header_obj ← urlretrieve remote_l1b_url_str l1b_fileP;
    n ← py_int header_obj;
    print {| msg_gb_tenths := gb_tenths n; msg_path := l1b_fileP |}.

Definition cell1 (os : OS) : M string :=
  import_ "urllib.request";;
  import_ "pathlib";;
  l1b_fileP ← lift (l1b_path os);
  download_step l1b_fileP;;
  mret l1b_fileP.

(** *** Cell 3: vertical stare dataset *)
Definition cell3 (l1b_fileP : string) : M xr_dataset :=
  import_ "numpy";;
  import_ "xarray";;
  vert_stare_ds ← open_dataset l1b_fileP "vertical_stare";
  display (OutDataset (ds_group vert_stare_ds));;
  mret vert_stare_ds.

(** *** Cells 5, 9 and 15: the plots of the geophysical variables *)

Definition enable_plot_rasterize_bl : bool := true.

Definition layout_title : string := "MAGPIE, Barbados, Ragged Point, 2023-08-14".

(** One plot of a geophysical variable: the colour-bar label is the
    variable's [long_name] (with its [units] for the backscatter), the
    title its [long_name] with underscores replaced by spaces. *)
Definition geo_plot (kind : plot_kind) (ds : xr_dataset) (name x y : string)
    (clim : pyval) (logz : option bool) (units : bool) : M plot :=
  da ← getvar ds name;
  long_name ← getattr da "long_name";
  clabel ← (if units
            then u ← getattr da "units"; mret (long_name +:+ " [" +:+ u +:+ "]")
            else mret long_name);
  p ← hvplot kind da
        ([("x", VStr x); ("y", VStr y); ("cmap", VStr "turbo"); ("clim", clim)]
         ++ match logz with Some b => [("logz", VBool b)] | None => [] end
         ++ [("clabel", VStr clabel); ("rasterize", VBool enable_plot_rasterize_bl)])%list;
  title ← getattr da "long_name";
  opts_plot p (replace_underscore title).

Definition show_layout (ps : list plot) (title : string) : M unit :=
  l ← opts_layout (layout_of ps) title;
  l ← cols l 2;
  display (OutLayout l).

Definition cell5 (vert_stare_ds : xr_dataset) : M unit :=
  import_ "hvplot.xarray";;
  import_ "holoviews";;
  perform (CExtension "bokeh");;
  perform (CSetConfig "image_rtol" (VNum 10));;
  perform (COptsDefaults "Image" [("active_tools", VList [VStr "box_zoom"])]);;
  perform (COptsDefaults "QuadMesh" [("active_tools", VList [VStr "box_zoom"])]);;
  perform (COptsDefaults "Curve"
             [("active_tools", VList [VStr "box_zoom"]); ("show_grid", VBool true)]);;
  perform (COptsDefaults "Scatter"
             [("active_tools", VList [VStr "box_zoom"]); ("show_grid", VBool true)]);;
  p1 ← geo_plot Default vert_stare_ds "particulate_backscatter_532nm" "time" "altitude"
         (VTuple [VNum (1 # 100000000); VNum (1 # 10000)]) (Some true) true;
  p2 ← geo_plot Default vert_stare_ds "particulate_linear_depolarization_532nm"
         "time" "altitude" (VTuple [VNum 0; VNum (6 # 10)]) None false;
  p3 ← geo_plot Default vert_stare_ds "particulate_optical_depth_532nm"
         "time" "altitude" (VTuple [VNone; VNum (8 # 10)]) None false;
  p4 ← geo_plot Default vert_stare_ds "attenuated_color_ratio_1064nm_532nm"
         "time" "altitude" (VTuple [VNum 0; VNum 1]) None false;
  show_layout [p1; p2; p3; p4] layout_title.

(** *** Cell 7: horizontal stare dataset *)
Definition cell7 (l1b_fileP : string) : M xr_dataset :=
  horz_stare_ds ← open_dataset l1b_fileP "horizontal_stare";
  display (OutDataset (ds_group horz_stare_ds));;
  mret horz_stare_ds.

Definition cell9 (horz_stare_ds : xr_dataset) : M unit :=
  p1 ← geo_plot Default horz_stare_ds "particulate_backscatter_532nm" "time" "range"
         (VTuple [VNum (2 # 1000000); VNum (7 # 1000000)]) (Some false) true;
  p2 ← geo_plot Default horz_stare_ds "particulate_linear_depolarization_532nm"
         "time" "range" (VTuple [VNum (1 # 100); VNum (9 # 100)]) None false;
  p3 ← geo_plot Default horz_stare_ds "particulate_optical_depth_532nm"
         "time" "range" (VTuple [VNone; VNum (8 # 10)]) None false;
  p4 ← geo_plot Default horz_stare_ds "attenuated_color_ratio_1064nm_532nm"
         "time" "range" (VTuple [VNum (3 # 10); VNum (6 # 10)]) None false;
  show_layout [p1; p2; p3; p4] layout_title.

(** *** Cell 11: the altitude of the horizontal stare at range 5 km *)
Definition cell11 (horz_stare_ds : xr_dataset) : M unit :=
  altitude_da ← getvar horz_stare_ds "altitude";
  let altitude_da :=
    {| da_group := da_group altitude_da; da_name := "altitude coordinate";
       da_var := da_var altitude_da; da_coords := da_coords altitude_da |} in
  at_5km ← sel altitude_da "range" 5000;
  p ← hvplot Default at_5km [("x", VStr "time"); ("label", VStr "range 5km")];
  display (OutPlot p).

(** *** Cell 13: scanning dataset *)
Definition cell13 (l1b_fileP : string) : M xr_dataset :=
  scanning_ds ← open_dataset l1b_fileP "scanning";
  display (OutDataset (ds_group scanning_ds));;
  mret scanning_ds.

Definition cell15 (scanning_ds : xr_dataset) : M unit :=
  p1 ← geo_plot Quadmesh scanning_ds "particulate_backscatter_532nm"
         "distance" "altitude"
         (VTuple [VNum (1 # 100000000); VNum (1 # 10000)]) (Some true) true;
  p2 ← geo_plot Quadmesh scanning_ds "particulate_linear_depolarization_532nm"
         "distance" "altitude" (VTuple [VNum 0; VNum (6 # 10)]) None false;
  p3 ← geo_plot Quadmesh scanning_ds "particulate_optical_depth_532nm"
         "distance" "altitude" (VTuple [VNone; VNum (8 # 10)]) None false;
  p4 ← geo_plot Quadmesh scanning_ds "attenuated_color_ratio_1064nm_532nm"
         "distance" "altitude" (VTuple [VNum 0; VNum 1]) None false;
  show_layout [p1; p2; p3; p4] layout_title.

(** *** Cell 17: time series of the scanning measurements *)

(** The altitude interval *)
Definition altitude_tpl : Z * Z := (80 - 20, 80 + 20).

(** The distance interval *)
Definition distance_tpl : Z * Z := (3000 - 20, 3000 + 20).

(** [(tpl[0] < da) & (da <= tpl[1])] *)
Definition within (tpl : Z * Z) (da : dataarray) : mask :=
  mask_and (lt_da (inject_Z tpl.1) da) (da_le da (inject_Z tpl.2)).

(** The mean values of the geophysical variables over the distance and
    altitude intervals. *)
Definition mean_scanning (scanning_ds : xr_dataset) : M xr_dataset :=
  distance ← getvar scanning_ds "distance";
  in_distance ← where_ scanning_ds (within distance_tpl distance) true;
  altitude ← getvar scanning_ds "altitude";
  in_altitude ← where_ in_distance (within altitude_tpl altitude) true;
  mean in_altitude ["angle"; "range"] true.

Definition scatter_plot (ds : xr_dataset) (name : string) : M plot :=
  da ← getvar ds name;
  hvplot Scatter da
    [("x", VStr "start_time"); ("xlabel", VStr "Scan start time"); ("grid", VBool true)].

Definition cell17 (scanning_ds : xr_dataset) : M unit :=
  mean_scanning_ds ← mean_scanning scanning_ds;
  p1 ← scatter_plot mean_scanning_ds "particulate_backscatter_532nm";
  p2 ← scatter_plot mean_scanning_ds "particulate_linear_depolarization_532nm";
  p3 ← scatter_plot mean_scanning_ds "particulate_optical_depth_532nm";
  p4 ← scatter_plot mean_scanning_ds "attenuated_color_ratio_1064nm_532nm";
  show_layout [p1; p2; p3; p4]
    "Scanning measurements over altitude and distance intervals [60, 100]m and [2980, 3020]m".

(** *** The notebook, run from top to bottom *)

(** The cells after the download, given the path of the L1B file. *)
Definition cells_3_to_17 (l1b_fileP : string) : M unit :=
  vert_stare_ds ← cell3 l1b_fileP;
  cell5 vert_stare_ds;;
  horz_stare_ds ← cell7 l1b_fileP;
  cell9 horz_stare_ds;;
  cell11 horz_stare_ds;;
  scanning_ds ← cell13 l1b_fileP;
  cell15 scanning_ds;;
  cell17 scanning_ds.

Definition notebook (os : OS) : M unit :=
  l1b_fileP ← cell1 os;
  cells_3_to_17 l1b_fileP.

(** *** The notebook without its conditional

    The straight-line program that the description of the notebook as "a
    linear sequence of library calls with no branching logic" speaks of:
    the download step with its [if] removed, its body run every time. *)
Definition download_step_unguarded (l1b_fileP : string) : M unit :=
  _ ← path_exists l1b_fileP;
  header_obj ← urlretrieve remote_l1b_url_str l1b_fileP;
  n ← py_int header_obj;
  print {| msg_gb_tenths := gb_tenths n; msg_path := l1b_fileP |}.

Definition notebook_straight_line (os : OS) : M unit :=
  import_ "urllib.request";;
  import_ "pathlib";;
  l1b_fileP ← lift (l1b_path os);
  download_step_unguarded l1b_fileP;;
  cells_3_to_17 l1b_fileP.

End Cells.

(** A run of the notebook in a fresh kernel. *)
Definition run (lib : Lib) (os : OS) (f : gmap string content) : result unit * State :=
  notebook lib os (init f).

(** ** The environment and the libraries

    The libraries read the environment on their own account: [urllib]
    takes its proxies from [http_proxy], [https_proxy] and [no_proxy],
    and [import] searches the directories of [PYTHONPATH].  A world gives,
    for each environment, what the libraries and the server do in a run
    started in it. *)
Definition World : Type := gmap string string -> Lib.

(** A run of the notebook in the world [w] by the user [os]. *)
Definition run_in (w : World) (os : OS) (f : gmap string content)
  : result unit * State :=
  run (w (environ os)) os f.


(** * The conversion script

    [SCRIPTPATH="$( cd -- "$(dirname "$0")" >/dev/null 2>&1 ; pwd -P )"]
    followed by one [jupyter nbconvert] command.  The script is modelled by
    the argument vector that the shell hands to [jupyter]: the words of the
    command after parameter expansion, field splitting and pathname
    expansion. *)
Module Script.

(** ** Word expansion *)

(** The characters of the default [IFS]: space, tab and newline. *)
Definition is_ifs (c : ascii) : bool :=
  Ascii.eqb c " "%char || Ascii.eqb c "009"%char || Ascii.eqb c "010"%char.

(** A part of a word: literal text, or the expansion of a parameter
    outside double quotes, which undergoes field splitting. *)
Inductive part : Type :=
  | Lit (s : string)
  | Unquoted (value : string).

Definition word : Type := list part.

(** The characters of a word after expansion, each with whether field
    splitting applies to it. *)
Definition mark (w : word) : list (ascii * bool) :=
  w ≫= λ p,
    match p with
    | Lit s => (λ c, (c, false)) <$> list_ascii_of_string s
    | Unquoted v => (λ c, (c, true)) <$> list_ascii_of_string v
    end.

(** Field splitting: an IFS white-space character that comes from an
    unquoted expansion ends the current field; empty fields are dropped.
    [cur] is the current field, reversed. *)
Fixpoint split (cs : list (ascii * bool)) (cur : list ascii) : list string :=
  match cs with
  | [] =>
      match cur with
      | [] => []
      | _ => [string_of_list_ascii (rev cur)]
      end
  | (c, splittable) :: r =>
      if splittable && is_ifs c
      then match cur with
           | [] => split r []
           | _ => string_of_list_ascii (rev cur) :: split r []
           end
      else split r (c :: cur)
  end.

(** The characters that make a field a pattern: [*], [?] and [[], and
    the backslash, which quotes in a pattern and which some versions of
    bash take for a pattern character in the result of an expansion. *)
Definition is_pattern_char (c : ascii) : bool :=
  Ascii.eqb c "*"%char || Ascii.eqb c "?"%char || Ascii.eqb c "["%char
  || Ascii.eqb c "092"%char.

Definition has_pattern (s : string) : bool :=
  existsb is_pattern_char (list_ascii_of_string s).

(** Pathname expansion: a field with a pattern character is replaced by
    the names of the files that match it, when there are any; the names
    are not split again.  [glob pat] lists the names that match [pat]. *)
Definition pathname_expansion (glob : string -> list string) (field : string)
  : list string :=
  if has_pattern field
  then match glob field with
       | [] => [field]
       | names => names
       end
  else [field].

(** No part of the command is quoted, so a pattern character counts
    wherever it stands in a field. *)
Definition expand_word (glob : string -> list string) (w : word) : list string :=
  split (mark w) [] ≫= pathname_expansion glob.

Definition expand_command (glob : string -> list string) (ws : list word)
  : list string :=
  ws ≫= expand_word glob.

(** ** The utilities the script calls *)

Fixpoint drop_component (l : list ascii) : list ascii :=
  match l with
  | c :: r => if Ascii.eqb c slash then l else drop_component r
  | [] => []
  end.

(** [dirname s] (POSIX): the path without its last component. *)
Definition dirname (s : string) : string :=
  let l := rev (list_ascii_of_string s) in
  match drop_slashes l with
  | [] => match l with [] => "." | _ => "/" end
  | l1 =>
      match drop_component l1 with
      | [] => "."
      | l2 =>
          match drop_slashes l2 with
          | [] => "/"
          | l3 => string_of_list_ascii (rev l3)
          end
      end
  end.

Fixpoint drop_newlines (l : list ascii) : list ascii :=
  match l with
  | c :: r => if Ascii.eqb c "010"%char then drop_newlines r else l
  | [] => []
  end.

(** [$( ... )]: the output of the command without its trailing newlines.
    [out] is the output before the newline that the utility appends. *)
Definition command_subst (out : string) : string :=
  string_of_list_ascii (rev (drop_newlines (rev (list_ascii_of_string out)))).

(** What the shell that runs the script sees: [$0], the physical path of
    the working directory it is invoked in ([pwd -P]), where [cd -- d]
    leads from there (the physical path of the new working directory,
    [None] when [cd] fails), and the names of the files that match a
    pattern, as the shell finds them from that working directory (none
    when nothing matches). *)
Record Host : Type := {
  arg0 : string;
  pwd_P : string;
  cd : string -> option string;
  glob : string -> list string
}.

(** ** The script *)

(** [SCRIPTPATH="$( cd -- "$(dirname "$0")" >/dev/null 2>&1 ; pwd -P )"]:
    [pwd -P] runs whether or not [cd] succeeded. *)
Definition SCRIPTPATH (h : Host) : string :=
  command_subst
    match cd h (command_subst (dirname (arg0 h))) with
    | Some d => d
    | None => pwd_P h
    end.

(** The words of the [jupyter nbconvert] command; [${SCRIPTPATH}] is not
    quoted. *)
Definition nbconvert_words (scriptpath : string) : list word :=
  [ [Lit "jupyter"];
    [Lit "nbconvert"];
    [Lit "--to"];
    [Lit "html_ch"];
    [Unquoted scriptpath; Lit "/read_display_uw_hsrl_scanning.ipynb"];
    [Lit "--no-input"];
    [Lit "--output-dir="; Unquoted scriptpath] ].

(** The argument vector of the command the script runs. *)
Definition argv (h : Host) : list string :=
  expand_command (glob h) (nbconvert_words (SCRIPTPATH h)).

(** ** What nbconvert makes of its arguments *)

Fixpoint strip_prefix (p s : string) : option string :=
  match p, s with
  | EmptyString, _ => Some s
  | String a p', String b s' => if Ascii.eqb a b then strip_prefix p' s' else None
  | String _ _, EmptyString => None
  end.

(** The directory given by [--output-dir=]; the last one counts. *)
Definition output_dir (args : list string) : option string :=
  last (omap (strip_prefix "--output-dir=") args).








End Script.

(** * Notions used to state the properties *)

(** The state after a library call [c] made in [st]. *)
Definition push (st : State) (c : call) : State :=
  {| fs := fs st; trace := trace st ++ [{| at_fs := fs st; the_call := c |}] |}.

(** [wp m Q E st]: running [m] in [st] ends in a state satisfying [Q] when
    it returns and [E] when it raises. *)
Definition wp {A : Type} (m : M A) (Q : A -> State -> Prop)
    (E : exn -> State -> Prop) (st : State) : Prop :=
  match m st with
  | (Ok a, st') => Q a st'
  | (Raised e, st') => E e st'
  end.

(** [keeps I E m]: started in a state satisfying [I], [m] returns in a
    state satisfying [I] or raises in a state satisfying [E]. *)
Definition keeps (I : State -> Prop) (E : exn -> State -> Prop)
    {A : Type} (m : M A) : Prop :=
  ∀ st, I st -> wp m (λ _, I) E st.

(** The library calls made between [st] and [st']. *)
Definition new_calls (st st' : State) : list call :=
  drop (length (trace st)) (calls st').

Definition is_fetch (c : call) : bool :=
  match c with CUrlretrieve _ _ => true | _ => false end.

Definition is_print (c : call) : bool :=
  match c with CPrint _ => true | _ => false end.

(** No download has been made and nothing has been printed. *)
Definition no_download (st : State) : Prop :=
  ∀ c, c ∈ calls st -> is_fetch c = false ∧ is_print c = false.

(** ** Failures of library calls *)

(** The exception, if any, that the [n]-th library call of a run raises,
    given the call and the file system it is made in: the failure the
    library reports, a download that the server does not answer, a file
    that is missing or cannot be read as netCDF4 with the group asked
    for. *)
Definition outcome (lib : Lib) (n : nat) (en : entry) : option exn :=
  match fault lib n (the_call en) with
  | Some e => Some e
  | None =>
      match the_call en with
      | CUrlretrieve url _ =>
          match remote lib url with
          | None => Some (URLError url)
          | Some _ => None
          end
      | COpenDataset p g =>
          match at_fs en !! p with
          | None => Some (FileNotFoundError p)
          | Some NotNetCDF => Some (OSError "NetCDF: Unknown file format")
          | Some (NetCDF groups) =>
              match groups !! g with
              | None => Some (OSError "group not found")
              | Some _ => None
              end
          end
      | _ => None
      end
  end.

(** No library call has failed so far. *)
Definition quiet (lib : Lib) (st : State) : Prop :=
  ∀ n en, trace st !! n = Some en -> outcome lib n en = None.

(** A library call that fails is the last call of the run, and the run
    ends with the exception of that call. *)
Definition propagated (lib : Lib) (e : exn) (st : State) : Prop :=
  ∀ n en e', trace st !! n = Some en -> outcome lib n en = Some e' ->
    e' = e ∧ length (trace st) = S n.

(** A call whose failure is decided by the library alone. *)
Definition plain (c : call) : bool :=
  match c with
  | CUrlretrieve _ _ | COpenDataset _ _ => false
  | _ => true
  end.

(** ** Libraries that behave alike *)

(** The server gives the same answers and the same calls fail in the same
    way. *)
Definition alike (l1 l2 : Lib) : Prop :=
  (∀ url, remote l1 url = remote l2 url) ∧ (∀ n c, fault l1 n c = fault l2 n c).

(** ** The data file and the calls that need it *)

(** The calls of cell 1 that come before the file is known to be there. *)
Definition before_download (c : call) : bool :=
  match c with
  | CImport m => bool_decide (m = "urllib.request" ∨ m = "pathlib")
  | CExists _ | CUrlretrieve _ _ => true
  | _ => false
  end.

(** If [c] opens a dataset, it opens it at [p]. *)
Definition opens_at (p : string) (c : call) : Prop :=
  ∀ q g, c = COpenDataset q g -> q = p.

(** No dataset was opened elsewhere than at [p], and every call that is
    not one of those of [before_download] was made with the file [p]
    present. *)
Definition file_seen (p : string) (st : State) : Prop :=
  ∀ en, en ∈ trace st ->
    opens_at p (the_call en)
    ∧ (before_download (the_call en) = false -> is_Some (at_fs en !! p)).

Definition file_present (p : string) (st : State) : Prop :=
  is_Some (fs st !! p) ∧ file_seen p st.

(** The same for the path that cell 1 computes under [os]; when there is
    no such path, the run gets no further than the imports of cell 1. *)
Definition file_seen_os (os : OS) (st : State) : Prop :=
  match l1b_path os with
  | Ok p => file_seen p st
  | Raised _ => ∀ en, en ∈ trace st -> before_download (the_call en) = true
  end.

(** ** The plots a run renders *)



(** The group, the name of the plotted array and the kind of a plot. *)
Definition plot_key (p : plot) : string * string * plot_kind :=
  (p_group p, p_name p, p_kind p).




Definition geophysical_variables : list string :=
  [ "particulate_backscatter_532nm";
    "particulate_linear_depolarization_532nm";
    "particulate_optical_depth_532nm";
    "attenuated_color_ratio_1064nm_532nm" ].


(** ** The selection of the scanning time series *)

(** [x] lies in the half-open interval [(lo, hi]]. *)
Definition in_half_open (lo hi : Q) (x : fp) : Prop :=
  match x with
  | Fin q => (lo < q)%Q ∧ (q <= hi)%Q
  | NaN => False
  end.

Global Instance in_half_open_dec lo hi x : Decision (in_half_open lo hi x).
Proof.
  destruct x as [|q]; simpl; [ right; tauto | ].
  destruct (Qlt_le_dec lo q) as [Hlo|Hlo]; [ | right ].
  - destruct (Qlt_le_dec hi q) as [Hhi|Hhi]; [ right | left; tauto ].
    intros [_ Hle]. exact (Qlt_not_le _ _ Hhi Hle).
  - intros [Hlt _]. exact (Qlt_not_le _ _ Hlt Hlo).
Defined.

(** The data points that enter the spatial average: distance in
    (2980, 3020] and altitude in (60, 100]. *)
Definition averaged (s : sample) : bool :=
  fp_lt (Fin 2980) (coord_at "distance" s)
  && fp_le (coord_at "distance" s) (Fin 3020)
  && fp_lt (Fin 60) (coord_at "altitude" s)
  && fp_le (coord_at "altitude" s) (Fin 100).

(** A property of an element that does not look at its value. *)
Definition blind (R : sample -> Prop) : Prop :=
  ∀ m s, R (mask_value m s) ↔ R s.

(** * A small world to run the notebook in *)
Module Sample.

(** The attributes of a geophysical variable. *)
Definition geo_attrs (long_name : string) : gmap string string :=
  {[ "long_name" := long_name; "units" := "m-1 sr-1" ]}.

Definition geo_vars (v : string -> variable) : gmap string variable :=
  {[ "particulate_backscatter_532nm" := v "particulate_backscatter";
     "particulate_linear_depolarization_532nm" := v "particulate_linear_depolarization";
     "particulate_optical_depth_532nm" := v "particulate_optical_depth";
     "attenuated_color_ratio_1064nm_532nm" := v "attenuated_color_ratio" ]}.

(** *** Vertical stare: two profiles of two altitudes *)

Definition vpt (t a : Z) (v : Q) : sample :=
  {| index := {[ "time" := inject_Z t; "altitude" := inject_Z a ]};
     aux := ∅;
     value := Fin v |}.

Definition vertical_var (long_name : string) : variable :=
  {| attrs := geo_attrs long_name;
     dims := ["time"; "altitude"];
     samples := [ vpt 0 100 1; vpt 0 200 2; vpt 30 100 3; vpt 30 200 4 ] |}.

Definition vertical_group : group_data :=
  {| g_coords := ∅; g_vars := geo_vars vertical_var |}.

(** *** Horizontal stare: two profiles of two ranges, with the altitude
    of each measurement *)

Definition hpt (t r : Z) (h v : Q) : sample :=
  {| index := {[ "time" := inject_Z t; "range" := inject_Z r ]};
     aux := {[ "altitude" := Fin h ]};
     value := Fin v |}.

Definition hpts : list sample :=
  [ hpt 0 2500 25 1; hpt 0 5000 30 2; hpt 30 2500 26 3; hpt 30 5000 32 4 ].

Definition horizontal_var (long_name : string) : variable :=
  {| attrs := geo_attrs long_name; dims := ["time"; "range"]; samples := hpts |}.

Definition horizontal_altitude : variable :=
  {| attrs := {[ "long_name" := "altitude"; "units" := "m" ]};
     dims := ["time"; "range"];
     samples :=
       (λ s, {| index := index s; aux := aux s; value := coord_at "altitude" s |})
         <$> hpts |}.

Definition horizontal_group : group_data :=
  {| g_coords := {[ "altitude" := horizontal_altitude ]};
     g_vars := geo_vars horizontal_var |}.

(** *** Scanning: two scans of three angles and three ranges

    The distance of a point goes with its range and its altitude with its
    angle; the points sit on and around the bounds of the two intervals
    of cell 17. *)

Definition pt (t a r : Z) (d h : Q) (v : fp) : sample :=
  {| index := {[ "start_time" := inject_Z t; "angle" := inject_Z a;
                 "range" := inject_Z r ]};
     aux := {[ "distance" := Fin d; "altitude" := Fin h ]};
     value := v |}.

Definition scan0 : list sample :=
  [ pt 0 0 0 2980 60 (Fin 1);    pt 0 0 1 3000 60 (Fin 2);    pt 0 0 2 3020 60 (Fin 4);
    pt 0 1 0 2980 80 (Fin 8);    pt 0 1 1 3000 80 (Fin 16);   pt 0 1 2 3020 80 (Fin 32);
    pt 0 2 0 2980 100 (Fin 64);  pt 0 2 1 3000 100 (Fin 128); pt 0 2 2 3020 100 (Fin 256) ].

(** In the second scan one of the points inside the intervals is NaN. *)
Definition scan1 : list sample :=
  [ pt 1 0 0 2980 60 (Fin 3);    pt 1 0 1 3000 60 (Fin 6);    pt 1 0 2 3020 60 (Fin 12);
    pt 1 1 0 2980 80 (Fin 24);   pt 1 1 1 3000 80 NaN;        pt 1 1 2 3020 80 (Fin 96);
    pt 1 2 0 2980 100 (Fin 192); pt 1 2 1 3000 100 (Fin 384); pt 1 2 2 3020 100 (Fin 768) ].

Definition pts : list sample := scan0 ++ scan1.

Definition var (long_name : string) : variable :=
  {| attrs := geo_attrs long_name;
     dims := ["start_time"; "angle"; "range"];
     samples := pts |}.

(** A coordinate of the scanning group, along angle and range: its value
    at a point is the value the points carry for it. *)
Definition coord (name : string) : variable :=
  {| attrs := {[ "long_name" := name; "units" := "m" ]};
     dims := ["angle"; "range"];
     samples :=
       (λ s, {| index := delete "start_time" (index s); aux := aux s;
                value := coord_at name s |}) <$> scan0 |}.

Definition group : group_data :=
  {| g_coords := {[ "altitude" := coord "altitude"; "distance" := coord "distance" ]};
     g_vars := geo_vars var |}.

Definition l1b : content :=
  NetCDF {[ "vertical_stare" := vertical_group; "horizontal_stare" := horizontal_group;
            "scanning" := group ]}.

(** The server answers every download with the file; no call fails. *)
Definition lib : Lib :=
  {| remote := λ _, Some {| body := l1b; content_length := Some 1500000000 |};
     fault := λ _ _, None |}.

(** The same, but importing xarray fails. *)
Definition lib_no_xarray : Lib :=
  {| remote := remote lib;
     fault := λ _ c, match c with
                     | CImport "xarray" => Some (ImportError "xarray")
                     | _ => None
                     end |}.

Definition alice : OS := {| environ := {[ "HOME" := "/home/alice" ]}; pw_dir := None |}.

Definition bob : OS := {| environ := {[ "HOME" := "/home/bob" ]}; pw_dir := None |}.

Definition alice_l1b : string :=
  "/home/alice/bagohsrl_20230814T000000_20230815T000000_30.0s_7.5m_1.0deg_L1B_preliminary.nc".

(** A file system in which Alice's copy of the file is there already. *)
Definition cached : gmap string content := {[ alice_l1b := l1b ]}.

Definition scanning_ds : xr_dataset :=
  {| ds_group := "scanning"; ds_coords := g_coords group; ds_vars := g_vars group |}.

Definition distance_da : dataarray := array_of scanning_ds "distance" (coord "distance").

Definition altitude_da : dataarray := array_of scanning_ds "altitude" (coord "altitude").

(** What cell 17 computes from [scanning_ds]. *)
Definition mean_scanning_ds : xr_dataset :=
  mean_ds ["angle"; "range"] true
    (where_ds (within altitude_tpl altitude_da) true
       (where_ds (within distance_tpl distance_da) true scanning_ds)).

(** The script, in a directory whose path has no white space, run from
    another directory. *)
Definition plain_host : Script.Host :=
  {| Script.arg0 := "/srv/hsrl/examples/convert.sh";
     Script.pwd_P := "/tmp";
     Script.cd := λ d, if bool_decide (d = "/srv/hsrl/examples") then Some d else None;
     Script.glob := λ _, [] |}.

(** The script, in a directory whose path has a space. *)
Definition spaced_host : Script.Host :=
  {| Script.arg0 := "/srv/hsrl demo/examples/convert.sh";
     Script.pwd_P := "/tmp";
     Script.cd := λ d, if bool_decide (d = "/srv/hsrl demo/examples") then Some d else None;
     Script.glob := λ _, [] |}.

End Sample.

(** * Further notions *)

(** A string without the white space that the shell splits at. *)
Definition no_ifs (s : string) : Prop :=
  Forall (λ c, Script.is_ifs c = false) (list_ascii_of_string s).

(** A string without a slash. *)
Definition no_slash (s : string) : Prop :=
  Forall (λ c, c ≠ slash) (list_ascii_of_string s).

(** A part of a word whose literal text has no white space. *)
Definition clean_part (p : Script.part) : Prop :=
  match p with
  | Script.Lit s => no_ifs s
  | Script.Unquoted _ => True
  end.

(** A string without a pattern character of pathname expansion. *)
Definition no_glob (s : string) : Prop :=
  Forall (λ c, Script.is_pattern_char c = false) (list_ascii_of_string s).

(** A part of a word without a pattern character. *)
Definition plain_part (p : Script.part) : Prop :=
  match p with
  | Script.Lit s => no_glob s
  | Script.Unquoted v => no_glob v
  end.

(** A string that does not begin with a dash: as an argument of a
    utility it is an operand, not an option. *)
Definition no_dash (s : string) : Prop :=
  match s with
  | String c _ => c ≠ "-"%char
  | EmptyString => True
  end.

(** * Further worlds *)
Module Cases.

(** The server answers without a [Content-Length]. *)
Definition lib_no_length : Lib :=
  {| remote := λ _, Some {| body := Sample.l1b; content_length := None |};
     fault := λ _ _, None |}.

(** The server does not answer. *)
Definition lib_offline : Lib :=
  {| remote := λ _, None; fault := λ _ _, None |}.

(** A world in which nothing is reached through a proxy: with
    [https_proxy] set the server gives no answer. *)
Definition proxy_world : World :=
  λ env, if bool_decide (is_Some (env !! "https_proxy")) then lib_offline else Sample.lib.

(** Alice behind a proxy, and Alice with another locale. *)
Definition alice_proxy : OS :=
  {| environ := {[ "HOME" := "/home/alice"; "https_proxy" := "http://proxy:3128" ]};
     pw_dir := None |}.

Definition alice_utf8 : OS :=
  {| environ := {[ "HOME" := "/home/alice"; "LANG" := "C.UTF-8" ]}; pw_dir := None |}.

(** A user without a home directory. *)
Definition nobody : OS := {| environ := ∅; pw_dir := None |}.

(** Alice, with a trailing slash in HOME and an entry in the password
    database that says otherwise. *)
Definition alice_slash : OS :=
  {| environ := {[ "HOME" := "/home/alice/" ]}; pw_dir := Some "/root" |}.

(** A dataset without variables. *)
Definition empty_ds : xr_dataset :=
  {| ds_group := "scanning"; ds_coords := ∅; ds_vars := ∅ |}.

(** The first plot of cell 15 on the sample. *)
Definition backscatter_plot : plot :=
  {| p_kind := Quadmesh; p_group := "scanning";
     p_name := "particulate_backscatter_532nm";
     p_kwargs :=
       [ ("x", VStr "distance"); ("y", VStr "altitude"); ("cmap", VStr "turbo");
         ("clim", VTuple [VNum (1 # 100000000); VNum (1 # 10000)]);
         ("logz", VBool true);
         ("clabel", VStr "particulate_backscatter [m-1 sr-1]");
         ("rasterize", VBool true) ];
     p_title := Some "particulate backscatter" |}.

(** The script run by a relative path from the directory above its own. *)
Definition relative_host : Script.Host :=
  {| Script.arg0 := "examples/convert.sh";
     Script.pwd_P := "/srv/hsrl";
     Script.cd := λ d, if bool_decide (d = "examples") then Some "/srv/hsrl/examples"
                       else None;
     Script.glob := λ _, [] |}.

(** The script run by its bare name from its own directory. *)
Definition bare_host : Script.Host :=
  {| Script.arg0 := "convert.sh";
     Script.pwd_P := "/srv/hsrl/examples";
     Script.cd := λ d, if bool_decide (d = ".") then Some "/srv/hsrl/examples" else None;
     Script.glob := λ _, [] |}.

(** The script in a directory whose name has a star, next to a
    directory whose name the pattern matches and which has a notebook of
    the same name. *)
Definition star_host : Script.Host :=
  {| Script.arg0 := "/srv/g/a*b/convert.sh";
     Script.pwd_P := "/tmp";
     Script.cd := λ d, if bool_decide (d = "/srv/g/a*b") then Some d else None;
     Script.glob := λ pat,
       if bool_decide (pat = "/srv/g/a*b/read_display_uw_hsrl_scanning.ipynb")
       then [ "/srv/g/a b/read_display_uw_hsrl_scanning.ipynb";
              "/srv/g/a*b/read_display_uw_hsrl_scanning.ipynb" ]
       else [] |}.

End Cases.

(** * The calls of a run, without what depends on the data

    What a library call is given depends on the data in two places: the
    labels of the plots (titles and colour-bar labels come from the
    attributes of the variables) and the size printed after a download.
    [skeleton] erases them. *)

Definition erase_kw (kw : kwargs) : kwargs :=
  (λ kv, if String.eqb kv.1 "clabel" then (kv.1, VNone) else kv) <$> kw.

Definition erase_plot (p : plot) : plot :=
  {| p_kind := p_kind p; p_group := p_group p; p_name := p_name p;
     p_kwargs := erase_kw (p_kwargs p);
     p_title := (λ _, "") <$> p_title p |}.

Definition erase_output (o : output) : output :=
  match o with
  | OutDataset g => OutDataset g
  | OutPlot p => OutPlot (erase_plot p)
  | OutLayout l =>
      OutLayout {| l_plots := erase_plot <$> l_plots l;
                   l_title := l_title l; l_cols := l_cols l |}
  end.

Definition skeleton (c : call) : call :=
  match c with
  | CPrint m => CPrint {| msg_gb_tenths := 0; msg_path := msg_path m |}
  | CDisplay o => CDisplay (erase_output o)
  | CHvplot kind g n kw => CHvplot kind g n (erase_kw kw)
  | COpts _ => COpts ""
  | _ => c
  end.

(** The calls made up to a state, erased. *)
Definition skel (st : State) : list call := skeleton <$> calls st.

(** The datasets opened by a sequence of calls: path and group. *)
Definition opened (cs : list call) : list (string * string) :=
  omap (λ c, match c with COpenDataset p g => Some (p, g) | _ => None end) cs.

(** ** The calls of the cells, in order *)

(** The keyword arguments of a plot of a geophysical variable, the
    colour-bar label erased. *)
Definition geo_kwargs (x y : string) (clim : pyval) (logz : option bool) : kwargs :=
  ([("x", VStr x); ("y", VStr y); ("cmap", VStr "turbo"); ("clim", clim)]
   ++ match logz with Some b => [("logz", VBool b)] | None => [] end
   ++ [("clabel", VNone); ("rasterize", VBool true)])%list.

(** A plot of a geophysical variable, its labels erased. *)
Definition geo_erased (kind : plot_kind) (g name x y : string) (clim : pyval)
    (logz : option bool) : plot :=
  {| p_kind := kind; p_group := g; p_name := name;
     p_kwargs := geo_kwargs x y clim logz; p_title := Some "" |}.

(** The calls of one plot of a geophysical variable: [hvplot], [opts]. *)
Definition geo_calls (kind : plot_kind) (g name x y : string) (clim : pyval)
    (logz : option bool) : list call :=
  [CHvplot kind g name (geo_kwargs x y clim logz); COpts ""].

(** The calls that lay out and display plots: [opts], [cols], display. *)
Definition layout_calls (ps : list plot) (title : string) : list call :=
  [ COpts ""; CCols 2;
    CDisplay (OutLayout {| l_plots := ps; l_title := Some title; l_cols := Some 2 |}) ].

(** The four plots of the geophysical variables of a group and their
    layout (cells 5, 9 and 15). *)
Definition geo4_calls (kind : plot_kind) (g x y : string) (logz : bool)
    (c1 c2 c3 c4 : pyval) : list call :=
  (geo_calls kind g "particulate_backscatter_532nm" x y c1 (Some logz)
   ++ geo_calls kind g "particulate_linear_depolarization_532nm" x y c2 None
   ++ geo_calls kind g "particulate_optical_depth_532nm" x y c3 None
   ++ geo_calls kind g "attenuated_color_ratio_1064nm_532nm" x y c4 None
   ++ layout_calls
        [ geo_erased kind g "particulate_backscatter_532nm" x y c1 (Some logz);
          geo_erased kind g "particulate_linear_depolarization_532nm" x y c2 None;
          geo_erased kind g "particulate_optical_depth_532nm" x y c3 None;
          geo_erased kind g "attenuated_color_ratio_1064nm_532nm" x y c4 None ]
        layout_title)%list.

Definition scatter_kwargs : kwargs :=
  [("x", VStr "start_time"); ("xlabel", VStr "Scan start time"); ("grid", VBool true)].

Definition scatter_erased (name : string) : plot :=
  {| p_kind := Scatter; p_group := "scanning"; p_name := name;
     p_kwargs := scatter_kwargs; p_title := None |}.

Definition altitude_kwargs : kwargs :=
  [("x", VStr "time"); ("label", VStr "range 5km")].

(** The calls of cells 3 to 17 of a run that returns, erased. *)
Definition rest_calls (p : string) : list call :=
  ([ CImport "numpy"; CImport "xarray";
     COpenDataset p "vertical_stare"; CDisplay (OutDataset "vertical_stare");
     CImport "hvplot.xarray"; CImport "holoviews";
     CExtension "bokeh"; CSetConfig "image_rtol" (VNum 10);
     COptsDefaults "Image" [("active_tools", VList [VStr "box_zoom"])];
     COptsDefaults "QuadMesh" [("active_tools", VList [VStr "box_zoom"])];
     COptsDefaults "Curve"
       [("active_tools", VList [VStr "box_zoom"]); ("show_grid", VBool true)];
     COptsDefaults "Scatter"
       [("active_tools", VList [VStr "box_zoom"]); ("show_grid", VBool true)] ]
   ++ geo4_calls Default "vertical_stare" "time" "altitude" true
        (VTuple [VNum (1 # 100000000); VNum (1 # 10000)])
        (VTuple [VNum 0; VNum (6 # 10)])
        (VTuple [VNone; VNum (8 # 10)])
        (VTuple [VNum 0; VNum 1])
   ++ [ COpenDataset p "horizontal_stare"; CDisplay (OutDataset "horizontal_stare") ]
   ++ geo4_calls Default "horizontal_stare" "time" "range" false
        (VTuple [VNum (2 # 1000000); VNum (7 # 1000000)])
        (VTuple [VNum (1 # 100); VNum (9 # 100)])
        (VTuple [VNone; VNum (8 # 10)])
        (VTuple [VNum (3 # 10); VNum (6 # 10)])
   ++ [ CSel "range" 5000 "nearest";
        CHvplot Default "horizontal_stare" "altitude coordinate" altitude_kwargs;
        CDisplay (OutPlot {| p_kind := Default; p_group := "horizontal_stare";
                             p_name := "altitude coordinate";
                             p_kwargs := altitude_kwargs; p_title := None |}) ]
   ++ [ COpenDataset p "scanning"; CDisplay (OutDataset "scanning") ]
   ++ geo4_calls Quadmesh "scanning" "distance" "altitude" true
        (VTuple [VNum (1 # 100000000); VNum (1 # 10000)])
        (VTuple [VNum 0; VNum (6 # 10)])
        (VTuple [VNone; VNum (8 # 10)])
        (VTuple [VNum 0; VNum 1])
   ++ [ CWhere true; CWhere true; CMean ["angle"; "range"] true ]
   ++ ((λ v, CHvplot Scatter "scanning" v scatter_kwargs) <$> geophysical_variables)
   ++ layout_calls (scatter_erased <$> geophysical_variables)
        "Scanning measurements over altitude and distance intervals [60, 100]m and [2980, 3020]m")%list.

(** The calls of cell 1, erased: the download and the print are made when
    the file is not cached. *)
Definition cell1_calls (p : string) (cached : bool) : list call :=
  ([CImport "urllib.request"; CImport "pathlib"; CExists p]
   ++ if cached then []
      else [ CUrlretrieve remote_l1b_url_str p;
             CPrint {| msg_gb_tenths := 0; msg_path := p |} ])%list.

(** The calls of a run that returns, erased. *)
Definition run_calls (p : string) (cached : bool) : list call :=
  (cell1_calls p cached ++ rest_calls p)%list.

(** [does L m]: [m] makes the calls [L], erased, when it returns, and the
    calls of a prefix of [L] when it raises. *)
Definition does {A : Type} (L : list call) (m : M A) : Prop :=
  ∀ st, wp m (λ _ st', skel st' = (skel st ++ L)%list)
             (λ _ st', ∃ L', L' `prefix_of` L ∧ skel st' = (skel st ++ L')%list) st.

(** * Strings *)

Lemma list_ascii_of_string_app a b :
  list_ascii_of_string (a +:+ b) = (list_ascii_of_string a ++ list_ascii_of_string b)%list.
Proof. induction a as [|c a IH]; simpl; [ reflexivity | by rewrite IH ]. Qed.

(** * Rules for [wp] and [keeps] *)

Lemma wp_ret {A} (a : A) Q E st : wp (mret a) Q E st = Q a st.
Proof. reflexivity. Qed.

Lemma wp_raise {A} (e : exn) (Q : A -> State -> Prop) E st :
  wp (raise e) Q E st = E e st.
Proof. reflexivity. Qed.

Lemma wp_bind {A B} (m : M A) (k : A -> M B) Q E st :
  wp (m ≫= k) Q E st = wp m (λ a, wp (k a) Q E) E st.
Proof.
  unfold wp, mbind, M_bind. destruct (m st) as [[a|e] st']; reflexivity.
Qed.

Lemma wp_get_fs Q E st : wp get_fs Q E st = Q (fs st) st.
Proof. reflexivity. Qed.

Lemma wp_write_file p c Q E st :
  wp (write_file p c) Q E st
  = Q () {| fs := <[p := c]> (fs st); trace := trace st |}.
Proof. reflexivity. Qed.

Lemma wp_mono {A} (m : M A) (Q Q' : A -> State -> Prop)
    (E E' : exn -> State -> Prop) st :
  (∀ a s, Q a s -> Q' a s) -> (∀ e s, E e s -> E' e s) ->
  wp m Q E st -> wp m Q' E' st.
Proof.
  unfold wp. intros HQ HE. destruct (m st) as [[a|e] st']; auto.
Qed.

Lemma wp_perform lib c Q E st :
  wp (perform lib c) Q E st
  = match fault lib (length (trace st)) c with
    | Some e => E e (push st c)
    | None => Q () (push st c)
    end.
Proof.
  unfold wp, perform, push. destruct (fault lib (length (trace st)) c); reflexivity.
Qed.

Lemma wp_lift {A} (r : result A) Q E st :
  wp (lift r) Q E st = match r with Ok a => Q a st | Raised e => E e st end.
Proof. unfold wp, lift. destruct r; reflexivity. Qed.

Section Keeps.

Context (I : State -> Prop) (E : exn -> State -> Prop).

Lemma keeps_ret {A} (a : A) : keeps I E (mret a).
Proof. intros st H. exact H. Qed.

Lemma keeps_bind {A B} (m : M A) (k : A -> M B) :
  keeps I E m -> (∀ a, keeps I E (k a)) -> keeps I E (m ≫= k).
Proof.
  intros Hm Hk st H. rewrite wp_bind.
  apply (wp_mono m (λ _, I) _ E E st); [ | auto | apply Hm, H ].
  intros a s Hs. apply Hk, Hs.
Qed.

Lemma keeps_raise {A} (e : exn) : (∀ st, I st -> E e st) -> keeps I E (@raise A e).
Proof. intros H st Hst. apply H, Hst. Qed.

Lemma keeps_lift {A} (r : result A) :
  (∀ e st, I st -> E e st) -> keeps I E (lift r).
Proof. intros H st Hst. rewrite wp_lift. destruct r; auto. Qed.

Lemma keeps_get_fs : keeps I E get_fs.
Proof. intros st H. exact H. Qed.

Lemma keeps_perform lib c :
  (∀ st, I st -> fault lib (length (trace st)) c = None -> I (push st c)) ->
  (∀ st e, I st -> fault lib (length (trace st)) c = Some e -> E e (push st c)) ->
  keeps I E (perform lib c).
Proof.
  intros HI HE st H. rewrite wp_perform.
  destruct (fault lib (length (trace st)) c) eqn:Hf; eauto.
Qed.

End Keeps.

(** The definitions a proof walks through. *)
Create HintDb cells.

#[local] Hint Unfold notebook cells_3_to_17 cell1 cell3 cell5 cell7 cell9 cell11
  cell13 cell15 cell17 download_step geo_plot show_layout mean_scanning
  scatter_plot import_ path_exists py_int print display getvar getattr hvplot
  opts_plot opts_layout cols sel where_ mean : cells.

(** One step through a program: [leaf] is tried first, [side] closes the
    conditions on [raise], [lift] and [perform]. *)
Ltac keeps_step leaf side :=
  lazymatch goal with
  | |- keeps _ _ (mbind _ _) => apply keeps_bind; [ | intros ? ]
  | |- keeps _ _ (mret _) => apply keeps_ret
  | |- keeps _ _ get_fs => apply keeps_get_fs
  | |- keeps _ _ (raise _) => apply keeps_raise; side
  | |- keeps _ _ (lift _) => apply keeps_lift; side
  | |- keeps _ _ (perform _ _) => apply keeps_perform; side
  | |- keeps _ _ (match ?x with _ => _ end) => destruct x
  | |- keeps _ _ _ => leaf
  end.

Ltac keeps_walk leaf side :=
  autounfold with cells; cbv beta iota;
  repeat (keeps_step leaf side; cbv beta iota).

(** Running a program under [wp]: [wp_pure] runs up to the next library
    call or case distinction, [wp_call] through the next library call. *)
Ltac wp_pure :=
  repeat (first [ rewrite wp_bind | rewrite wp_ret | rewrite wp_raise
                | rewrite wp_get_fs | rewrite wp_write_file | rewrite wp_lift ];
          cbv beta).

Ltac case_fault :=
  match goal with
  | |- match fault ?l ?n ?c with _ => _ end => destruct (fault l n c) eqn:?
  end.

Ltac wp_call := wp_pure; rewrite wp_perform; case_fault.

(** Runs a program to its result, leaving aside the runs that raise. *)
Ltac wp_ok :=
  repeat first
    [ wp_call; [ exact Logic.I | ]
    | progress wp_pure
    | match goal with
      | |- wp (match ?x with _ => _ end) _ _ _ => destruct x eqn:?
      | |- match ?x with _ => _ end => destruct x eqn:?
      end ].

(** * Failures propagate *)

Section Propagation.

Context (lib : Lib).

Lemma quiet_init f : quiet lib (init f).
Proof. intros n en H. simpl in H. rewrite lookup_nil in H. discriminate. Qed.

Lemma quiet_propagated e st : quiet lib st -> propagated lib e st.
Proof.
  intros Hq n en e' Hn Ho. rewrite (Hq n en Hn) in Ho. discriminate.
Qed.

Lemma lookup_push st c n en :
  trace (push st c) !! n = Some en ->
  trace st !! n = Some en
  ∨ (n = length (trace st) ∧ en = {| at_fs := fs st; the_call := c |}).
Proof.
  simpl. intros H. apply lookup_app_Some in H as [H | [Hge H]]; [ by left | right ].
  destruct (n - length (trace st))%nat as [|k] eqn:Hk; simpl in H.
  - split; [ lia | congruence ].
  - rewrite lookup_nil in H. discriminate.
Qed.

(** After a call whose own outcome is [None], no call has failed. *)
Lemma quiet_push st c :
  quiet lib st ->
  outcome lib (length (trace st)) {| at_fs := fs st; the_call := c |} = None ->
  quiet lib (push st c).
Proof.
  intros Hq Ho n en Hn. apply lookup_push in Hn as [Hn | [-> ->]]; auto.
Qed.

Lemma quiet_push_plain st c :
  quiet lib st -> plain c = true ->
  fault lib (length (trace st)) c = None ->
  quiet lib (push st c).
Proof.
  intros Hq Hp Hf. apply quiet_push; [ exact Hq | ].
  unfold outcome. simpl. rewrite Hf. destruct c; try reflexivity; discriminate.
Qed.

(** A call that fails after calls that did not is the last one, and its
    exception is the one that counts. *)
Lemma propagated_last st c e :
  quiet lib st ->
  outcome lib (length (trace st)) {| at_fs := fs st; the_call := c |} = Some e ->
  propagated lib e (push st c).
Proof.
  intros Hq Ho n en e' Hn Hen. apply lookup_push in Hn as [Hn | [-> ->]].
  - rewrite (Hq n en Hn) in Hen. discriminate.
  - rewrite Ho in Hen. injection Hen as <-. split; [ reflexivity | ].
    simpl. rewrite length_app. simpl. lia.
Qed.

Lemma propagated_push st c e :
  quiet lib st -> fault lib (length (trace st)) c = Some e ->
  propagated lib e (push st c).
Proof.
  intros Hq Hf. apply propagated_last; [ exact Hq | ].
  unfold outcome. simpl. rewrite Hf. reflexivity.
Qed.

Lemma quiet_write st p c :
  quiet lib st -> quiet lib {| fs := <[p := c]> (fs st); trace := trace st |}.
Proof. intros Hq n en Hn. apply (Hq n en Hn). Qed.

Lemma urlretrieve_propagates url p :
  keeps (quiet lib) (propagated lib) (urlretrieve lib url p).
Proof.
  intros st Hq. unfold urlretrieve. rewrite wp_bind, wp_perform.
  destruct (fault lib (length (trace st)) (CUrlretrieve url p)) eqn:Hf.
  { by apply propagated_push. }
  destruct (remote lib url) as [r|] eqn:Hr.
  - rewrite wp_bind, wp_write_file, wp_ret.
    apply quiet_write, quiet_push; [ exact Hq | ].
    unfold outcome. simpl. by rewrite Hf, Hr.
  - rewrite wp_raise. apply propagated_last; [ exact Hq | ].
    unfold outcome. simpl. by rewrite Hf, Hr.
Qed.

Lemma open_dataset_propagates p g :
  keeps (quiet lib) (propagated lib) (open_dataset lib p g).
Proof.
  intros st Hq. unfold open_dataset. rewrite wp_bind, wp_perform.
  destruct (fault lib (length (trace st)) (COpenDataset p g)) eqn:Hf.
  { by apply propagated_push. }
  rewrite wp_bind, wp_get_fs. simpl.
  destruct (fs st !! p) as [[groups|]|] eqn:Hp;
    [ destruct (groups !! g) as [gd|] eqn:Hg | | ];
    rewrite ?wp_ret, ?wp_raise;
    first [ apply quiet_push | apply propagated_last ]; try exact Hq;
    unfold outcome; simpl; rewrite Hf, Hp, ?Hg; reflexivity.
Qed.

Ltac propagation_leaf :=
  first [ apply urlretrieve_propagates | apply open_dataset_propagates ].

Ltac propagation_side :=
  intros;
  first [ apply quiet_propagated; assumption
        | apply quiet_push_plain; [ assumption | reflexivity | assumption ]
        | eapply propagated_push; eassumption ].

Lemma notebook_propagates os :
  keeps (quiet lib) (propagated lib) (notebook lib os).
Proof. keeps_walk propagation_leaf propagation_side. Qed.

End Propagation.

(** C5.  A failure raised by a library call (a failure the library
    reports on any call, among them a missing package on import, a
    download that gets no answer, a file that is missing or malformed on
    open) is propagated unchanged: the run ends with that very exception
    and the failing call is its last library call, so nothing catches it,
    retries or goes on. *)
Theorem failures_propagate lib os f n en e :
  trace (run lib os f).2 !! n = Some en ->
  outcome lib n en = Some e ->
  (run lib os f).1 = Raised e ∧ length (trace (run lib os f).2) = S n.
Proof.
  intros Hn Ho.
  pose proof (notebook_propagates lib os (init f) (quiet_init lib f)) as H.
  unfold wp in H. unfold run in *. destruct (notebook lib os (init f)) as [[[]|e0] st].
  - simpl in *. rewrite (H n en Hn) in Ho. discriminate.
  - simpl in *. destruct (H n en e Hn Ho) as [-> Hlen]. auto.
Qed.

Lemma failures_propagate_witness :
  (run Sample.lib_no_xarray Sample.alice ∅).1 = Raised (ImportError "xarray")
  ∧ length (trace (run Sample.lib_no_xarray Sample.alice ∅).2) = 7%nat.
Proof.
  apply (failures_propagate Sample.lib_no_xarray Sample.alice ∅ 6
           {| at_fs := Sample.cached; the_call := CImport "xarray" |}
           (ImportError "xarray")).
  - vm_cast_no_check
      (eq_refl (Some {| at_fs := Sample.cached; the_call := CImport "xarray" |})).
  - reflexivity.
Defined.

(** * The data file is there before it is used *)

Section FilePresent.

Context (lib : Lib).

Lemma file_seen_init p f : file_seen p (init f).
Proof. intros en H. simpl in H. by apply elem_of_nil in H. Qed.

Lemma file_seen_push p st c :
  file_seen p st ->
  opens_at p c ->
  (before_download c = false -> is_Some (fs st !! p)) ->
  file_seen p (push st c).
Proof.
  intros Hs Ho Hc en Hin. simpl in Hin.
  apply elem_of_app in Hin as [Hin | Hin]; [ by apply Hs | ].
  apply list_elem_of_singleton in Hin as ->. simpl. auto.
Qed.

Lemma file_present_push p st c :
  opens_at p c -> file_present p st -> file_present p (push st c).
Proof.
  intros Ho [Hp Hs]. split; [ exact Hp | ]. apply file_seen_push; auto.
Qed.

Lemma file_present_seen_push p st c :
  opens_at p c -> file_present p st -> file_seen p (push st c).
Proof. intros Ho H. apply (file_present_push p st c Ho H). Qed.

Lemma file_present_seen p st : file_present p st -> file_seen p st.
Proof. by intros [_ H]. Qed.

Ltac opens_at_side := intros ? ? ?; congruence.

Ltac present_side :=
  intros;
  first [ apply file_present_push; [ opens_at_side | assumption ]
        | apply file_present_seen_push; [ opens_at_side | assumption ]
        | apply file_present_seen; assumption ].

Lemma open_dataset_present p g :
  keeps (file_present p) (λ _, file_seen p) (open_dataset lib p g).
Proof. unfold open_dataset. keeps_walk fail present_side. Qed.

Lemma cells_3_to_17_present p :
  keeps (file_present p) (λ _, file_seen p) (cells_3_to_17 lib p).
Proof. keeps_walk ltac:(apply open_dataset_present) present_side. Qed.

Ltac early_push :=
  repeat (apply file_seen_push; [ | opens_at_side | discriminate ]);
  try apply file_seen_init; try assumption.

Ltac early_only :=
  let en := fresh "en" in
  let Hin := fresh "Hin" in
  intros en Hin; simpl in Hin;
  repeat (apply elem_of_cons in Hin as [-> | Hin]; [ reflexivity | ]);
  by apply elem_of_nil in Hin.

(** The download step leaves the file in place when it returns. *)
Lemma download_step_present p st :
  file_seen p st ->
  wp (download_step lib p) (λ _, file_present p) (λ _, file_seen p) st.
Proof.
  intros Hs. unfold download_step, path_exists.
  wp_call; [ early_push | ].
  wp_pure. simpl fs.
  assert (Hs1 : file_seen p (push st (CExists p))) by early_push.
  case_bool_decide as Hp.
  { wp_pure. by split. }
  unfold urlretrieve, py_int, print.
  wp_call; [ early_push | ].
  destruct (remote lib remote_l1b_url_str) as [r|].
  2:{ wp_pure. early_push. }
  wp_pure.
  set (st2 := {| fs := _; trace := _ |}).
  assert (Hp2 : file_present p st2).
  { split; [ simpl; rewrite lookup_insert_eq; eauto | ].
    apply (file_seen_push p _ (CUrlretrieve remote_l1b_url_str p));
      [ exact Hs1 | opens_at_side | discriminate ]. }
  destruct (content_length r).
  - wp_call; present_side.
  - wp_pure. by apply file_present_seen.
Qed.

Lemma cell1_present os f :
  wp (cell1 lib os)
    (λ p st, l1b_path os = Ok p ∧ file_present p st)
    (λ _, file_seen_os os)
    (init f).
Proof.
  unfold cell1, import_, file_seen_os.
  wp_call; [ destruct (l1b_path os); [ early_push | early_only ] | ].
  wp_call; [ destruct (l1b_path os); [ early_push | early_only ] | ].
  wp_pure. destruct (l1b_path os) as [p|e].
  - wp_pure.
    eapply wp_mono; [ | | apply download_step_present ].
    + intros [] s Hs. by rewrite wp_ret.
    + intros e s Hs. exact Hs.
    + early_push.
  - early_only.
Qed.

(** A run that returns has computed the path of the data file and ends
    with the file in place; in every run, no dataset is opened elsewhere
    than at that path, and every call other than the two imports of
    cell 1, the presence check and the download is made with the file
    present. *)
Lemma notebook_present os f :
  wp (notebook lib os)
    (λ _ st, ∃ p, l1b_path os = Ok p ∧ file_present p st)
    (λ _, file_seen_os os)
    (init f).
Proof.
  unfold notebook. rewrite wp_bind.
  eapply wp_mono; [ | | apply cell1_present ]; simpl; [ | auto ].
  intros p s [Hp Hs].
  eapply wp_mono; [ | | apply (cells_3_to_17_present p s Hs) ]; simpl.
  - intros _ s' Hs'. eauto.
  - intros e s' Hs'. unfold file_seen_os. by rewrite Hp.
Qed.

End FilePresent.

(** C4.  The notebook never opens the dataset before the data file
    exists: every [open_dataset] call of every run is made on the path of
    the L1B file, in a file system in which that file exists. *)
Theorem open_dataset_after_file_exists lib os f n en q g :
  trace (run lib os f).2 !! n = Some en ->
  the_call en = COpenDataset q g ->
  l1b_path os = Ok q ∧ is_Some (at_fs en !! q).
Proof.
  intros Hn Hc. apply list_elem_of_lookup_2 in Hn.
  pose proof (notebook_present lib os f) as H.
  unfold wp in H. unfold run in Hn.
  assert (Hseen : file_seen_os os (notebook lib os (init f)).2).
  { destruct (notebook lib os (init f)) as [[[]|e] st]; simpl; [ | exact H ].
    destruct H as (p & Hp & _ & Hs). unfold file_seen_os. by rewrite Hp. }
  unfold file_seen_os in Hseen. destruct (l1b_path os) as [p|e].
  - destruct (Hseen en Hn) as [Ho Hb].
    rewrite Hc in Ho, Hb. rewrite (Ho q g eq_refl). split; [ reflexivity | by apply Hb ].
  - specialize (Hseen en Hn). rewrite Hc in Hseen. discriminate.
Qed.

Lemma open_dataset_after_file_exists_witness :
  l1b_path Sample.alice = Ok Sample.alice_l1b
  ∧ is_Some (Sample.cached !! Sample.alice_l1b).
Proof.
  apply (open_dataset_after_file_exists Sample.lib Sample.alice ∅ 7
           {| at_fs := Sample.cached;
              the_call := COpenDataset Sample.alice_l1b "vertical_stare" |}
           Sample.alice_l1b "vertical_stare").
  - vm_cast_no_check
      (eq_refl (Some {| at_fs := Sample.cached;
                        the_call := COpenDataset Sample.alice_l1b "vertical_stare" |})).
  - reflexivity.
Defined.

(** * The plots of a run *)

Section Plots.

Context (lib : Lib).























End Plots.




(** * The one branch of the notebook *)

Section Branch.

Context (lib : Lib).

Lemma perform_fs c st : fs (perform lib c st).2 = fs st.
Proof. unfold perform. by destruct (fault lib (length (trace st)) c). Qed.

(** Where the file is absent, the download step is its body. *)
Lemma download_step_absent p st :
  fs st !! p = None ->
  download_step lib p st = download_step_unguarded lib p st.
Proof.
  intros Hp. unfold download_step, download_step_unguarded, path_exists.
  unfold mbind, M_bind, mret, M_ret, get_fs.
  pose proof (perform_fs (CExists p) st) as Hfs.
  destruct (perform lib (CExists p) st) as [[[]|e] st1]; [ | reflexivity ].
  simpl in Hfs. rewrite Hfs, Hp.
  rewrite bool_decide_eq_false_2; [ reflexivity | ].
  intros [x Hx]. discriminate.
Qed.

Lemma no_download_init f : no_download (init f).
Proof. intros c H. by apply elem_of_nil in H. Qed.

Lemma no_download_push st c :
  is_fetch c = false -> is_print c = false ->
  no_download st -> no_download (push st c).
Proof.
  intros Hf Hp Hs c' Hin. unfold calls, push in Hin. simpl in Hin.
  rewrite fmap_app in Hin. apply elem_of_app in Hin as [Hin | Hin]; [ by apply Hs | ].
  apply list_elem_of_singleton in Hin as ->. auto.
Qed.

Ltac no_download_side :=
  intros; repeat (apply no_download_push; [ reflexivity | reflexivity | ]); assumption.

Lemma cells_3_to_17_no_download p :
  keeps no_download (λ _, no_download) (cells_3_to_17 lib p).
Proof. keeps_walk ltac:(progress unfold open_dataset) no_download_side. Qed.

Lemma cell1_no_download os f p :
  l1b_path os = Ok p -> is_Some (f !! p) ->
  wp (cell1 lib os) (λ _, no_download) (λ _, no_download) (init f).
Proof.
  intros Hp Hf. unfold cell1, import_, download_step, path_exists.
  pose proof (no_download_init f) as H0.
  wp_call; [ no_download_side | ].
  wp_call; [ no_download_side | ].
  wp_pure. rewrite Hp.
  wp_call; [ no_download_side | ].
  wp_pure. simpl fs. rewrite bool_decide_eq_true_2 by exact Hf. wp_pure.
  no_download_side.
Qed.

Lemma notebook_no_download os f p :
  l1b_path os = Ok p -> is_Some (f !! p) -> no_download (run lib os f).2.
Proof.
  intros Hp Hf.
  assert (H : wp (notebook lib os) (λ _, no_download) (λ _, no_download) (init f)).
  { unfold notebook. rewrite wp_bind.
    eapply wp_mono; [ | | apply (cell1_no_download os f p Hp Hf) ]; simpl; [ | auto ].
    intros q s Hs. apply (cells_3_to_17_no_download q s Hs). }
  unfold wp in H. unfold run. by destruct (notebook lib os (init f)) as [[[]|e] st].
Qed.

Lemma notebook_absent os f p :
  l1b_path os = Ok p -> f !! p = None ->
  notebook lib os (init f) = notebook_straight_line lib os (init f).
Proof.
  intros Hp Hf. unfold notebook, notebook_straight_line, cell1, import_.
  unfold mbind, M_bind, mret, M_ret, lift.
  pose proof (perform_fs (CImport "urllib.request") (init f)) as H1.
  destruct (perform lib (CImport "urllib.request") (init f)) as [[[]|e] s1];
    [ | reflexivity ].
  pose proof (perform_fs (CImport "pathlib") s1) as H2.
  destruct (perform lib (CImport "pathlib") s1) as [[[]|e] s2]; [ | reflexivity ].
  rewrite Hp. simpl in H1, H2.
  rewrite download_step_absent by (by rewrite H2, H1).
  destruct (download_step_unguarded lib p s2) as [[[]|e] s3]; reflexivity.
Qed.

End Branch.

(** C3 (as stated, it fails).  With the same libraries and the same user,
    the run on an empty file system and the run on a file system that has
    the data file do not make the same library calls; and on the latter
    the notebook is not equivalent to the straight-line program. *)
Lemma calls_depend_on_the_file_system :
  calls (run Sample.lib Sample.alice ∅).2
    ≠ calls (run Sample.lib Sample.alice Sample.cached).2
  ∧ notebook Sample.lib Sample.alice (init Sample.cached)
    ≠ notebook_straight_line Sample.lib Sample.alice (init Sample.cached).
Proof.
  split; intros H.
  - apply (f_equal length) in H. vm_compute in H. discriminate.
  - apply (f_equal (λ r, length (trace r.2))) in H. vm_compute in H. discriminate.
Qed.

(** C3 (amended).  The notebook has one conditional, the presence check
    of the download step.  In every initial file system in which the data
    file is absent the notebook behaves exactly as the straight-line
    program obtained by removing the conditional; in every initial file
    system in which the file is present it makes no [urlretrieve] call and
    prints nothing. *)
Theorem one_conditional lib os f p :
  l1b_path os = Ok p ->
  (f !! p = None ->
     notebook lib os (init f) = notebook_straight_line lib os (init f))
  ∧ (is_Some (f !! p) ->
       ∀ c, c ∈ calls (run lib os f).2 -> is_fetch c = false ∧ is_print c = false).
Proof.
  intros Hp. split.
  - apply notebook_absent, Hp.
  - intros Hf. apply (notebook_no_download lib os f p Hp Hf).
Qed.

Lemma one_conditional_witness :
  ((∅ : gmap string content) !! Sample.alice_l1b = None ->
     notebook Sample.lib Sample.alice (init ∅)
     = notebook_straight_line Sample.lib Sample.alice (init ∅))
  ∧ (is_Some ((∅ : gmap string content) !! Sample.alice_l1b) ->
       ∀ c, c ∈ calls (run Sample.lib Sample.alice ∅).2 ->
         is_fetch c = false ∧ is_print c = false).
Proof.
  apply (one_conditional Sample.lib Sample.alice ∅ Sample.alice_l1b).
  vm_compute. reflexivity.
Defined.

(** * The download step *)

Lemma new_calls_trace st st' l :
  trace st' = (trace st ++ l)%list -> new_calls st st' = the_call <$> l.
Proof.
  intros H. unfold new_calls, calls. rewrite H, fmap_app.
  rewrite <- (length_fmap the_call (trace st)). apply drop_app_length.
Qed.

(** The path of the data file is the name of the remote file under the
    home directory. *)
Lemma l1b_path_under_home os home :
  expanduser os = Ok home ->
  l1b_path os
  = Ok (joinpath home
          "bagohsrl_20230814T000000_20230815T000000_30.0s_7.5m_1.0deg_L1B_preliminary.nc").
Proof. intros H. unfold l1b_path. rewrite H. reflexivity. Qed.

(** C1.  Whatever the file system, the download step (whose presence
    check returns) calls [urlretrieve] on the remote L1B file if and only
    if nothing exists at the local cache path; when something exists
    there, no download is made and the file system is left as it is. *)
Theorem download_iff_absent lib p st :
  fault lib (length (trace st)) (CExists p) = None ->
  (CUrlretrieve remote_l1b_url_str p ∈ new_calls st (download_step lib p st).2
   ↔ fs st !! p = None)
  ∧ (is_Some (fs st !! p) ->
       (∀ c, c ∈ new_calls st (download_step lib p st).2 -> is_fetch c = false)
       ∧ fs (download_step lib p st).2 = fs st).
Proof.
  intros Hf.
  set (P := λ st' : State,
    (CUrlretrieve remote_l1b_url_str p ∈ new_calls st st' ↔ fs st !! p = None)
    ∧ (is_Some (fs st !! p) ->
         (∀ c, c ∈ new_calls st st' -> is_fetch c = false) ∧ fs st' = fs st)).
  assert (H : wp (download_step lib p) (λ _, P) (λ _, P) st).
  { unfold download_step, path_exists.
    wp_pure. rewrite wp_perform, Hf. wp_pure. simpl fs.
    destruct (fs st !! p) as [c0|] eqn:Hp.
    - rewrite bool_decide_eq_true_2 by eauto. wp_pure.
      unfold P. rewrite ?Hp. erewrite new_calls_trace by (simpl; reflexivity). simpl.
      split; [ split; [ | discriminate ] | ].
      + intros H. apply list_elem_of_singleton in H. discriminate.
      + intros _. split; [ | reflexivity ].
        intros c H. by apply list_elem_of_singleton in H as ->.
    - rewrite bool_decide_eq_false_2 by (intros [x Hx]; discriminate).
      assert (Hin : ∀ st',
        (∃ l, trace st'
              = (trace st ++ {| at_fs := fs st; the_call := CExists p |}
                  :: {| at_fs := fs st;
                        the_call := CUrlretrieve remote_l1b_url_str p |} :: l)%list) ->
        P st').
      { intros st' [l Hl]. unfold P. rewrite ?Hp, (new_calls_trace _ _ _ Hl). simpl.
        split; [ | by intros [x Hx] ].
        split; [ reflexivity | intros _ ]. rewrite !elem_of_cons. auto. }
      unfold urlretrieve, py_int, print.
      wp_call; [ apply Hin; simpl; rewrite <- app_assoc; simpl; eauto | ].
      destruct (remote lib remote_l1b_url_str) as [r|].
      2:{ wp_pure. apply Hin. simpl. rewrite <- app_assoc. simpl. eauto. }
      wp_pure. destruct (content_length r).
      2:{ wp_pure. apply Hin. simpl. rewrite <- app_assoc. simpl. eauto. }
      wp_call; apply Hin; simpl; rewrite <- !app_assoc; simpl; eauto. }
  unfold wp in H. by destruct (download_step lib p st) as [[[]|e] st'].
Qed.

Lemma download_iff_absent_witness :
  (CUrlretrieve remote_l1b_url_str Sample.alice_l1b
     ∈ new_calls (init ∅) (download_step Sample.lib Sample.alice_l1b (init ∅)).2
   ↔ fs (init ∅) !! Sample.alice_l1b = None)
  ∧ (is_Some (fs (init ∅) !! Sample.alice_l1b) ->
       (∀ c, c ∈ new_calls (init ∅) (download_step Sample.lib Sample.alice_l1b (init ∅)).2 ->
          is_fetch c = false)
       ∧ fs (download_step Sample.lib Sample.alice_l1b (init ∅)).2 = fs (init ∅)).
Proof.
  apply (download_iff_absent Sample.lib Sample.alice_l1b (init ∅)).
  reflexivity.
Defined.

(** * The environment *)

(** C6 (as stated, it fails).  Alice's and Bob's runs differ only in the
    environment variable HOME, and they check, write and open different
    paths. *)
Lemma home_changes_the_paths :
  pw_dir Sample.alice = pw_dir Sample.bob
  ∧ calls (run Sample.lib Sample.alice ∅).2 ≠ calls (run Sample.lib Sample.bob ∅).2.
Proof.
  split; [ reflexivity | ].
  intros H. apply (f_equal (λ l, l !! 2%nat)) in H. vm_compute in H. discriminate.
Qed.

Lemma l1b_path_home os1 os2 :
  pw_dir os1 = pw_dir os2 ->
  environ os1 !! "HOME" = environ os2 !! "HOME" ->
  l1b_path os1 = l1b_path os2.
Proof.
  intros Hpw Hhome. unfold l1b_path, expanduser. by rewrite Hpw, Hhome.
Qed.

(** ** Runs with libraries that behave alike *)

Section Alike.

Context (l1 l2 : Lib) (Halike : alike l1 l2).

Lemma bind_alike {A B} (m1 m2 : M A) (k1 k2 : A -> M B) st :
  m1 st = m2 st -> (∀ a st', k1 a st' = k2 a st') ->
  (m1 ≫= k1) st = (m2 ≫= k2) st.
Proof.
  intros Hm Hk. unfold mbind, M_bind. rewrite Hm.
  destruct (m2 st) as [[a|e] st']; [ apply Hk | reflexivity ].
Qed.

Lemma perform_alike c st : perform l1 c st = perform l2 c st.
Proof. unfold perform. by rewrite (proj2 Halike). Qed.

Ltac alike_step :=
  lazymatch goal with
  | |- (_ ≫= _) _ = (_ ≫= _) _ => apply bind_alike; [ | intros ? ? ]
  | |- perform _ _ _ = perform _ _ _ => apply perform_alike
  | |- (match ?x with _ => _ end) _ = _ => destruct x
  | |- _ => reflexivity
  end.

Lemma notebook_alike os st : notebook l1 os st = notebook l2 os st.
Proof.
  autounfold with cells. unfold urlretrieve, open_dataset.
  rewrite (proj1 Halike).
  repeat (alike_step; cbv beta iota).
Qed.

End Alike.

(** The libraries need not see the same environment to be told apart:
    behind a proxy that reaches nothing, Alice's run stops at the
    download, though HOME is the same. *)
Example proxy_changes_the_run :
  environ Sample.alice !! "HOME" = environ Cases.alice_proxy !! "HOME"
  ∧ (run_in Cases.proxy_world Sample.alice ∅).1 = Ok ()
  ∧ (run_in Cases.proxy_world Cases.alice_proxy ∅).1
    = Raised (URLError remote_l1b_url_str).
Proof. vm_compute. auto. Qed.

(** C6 (amended).  The notebook's own code reads one environment
    variable, HOME: the cache path is the same under two environments
    that agree on HOME (and on the password database, which is asked when
    HOME is not set).  The libraries read further variables on their own
    account; whenever they behave alike under two such environments, the
    two runs end with the same result, the same file system and the same
    library calls, made on the same paths. *)
Theorem only_home_matters w os1 os2 f :
  pw_dir os1 = pw_dir os2 ->
  environ os1 !! "HOME" = environ os2 !! "HOME" ->
  l1b_path os1 = l1b_path os2
  ∧ (alike (w (environ os1)) (w (environ os2)) ->
     run_in w os1 f = run_in w os2 f).
Proof.
  intros Hpw Hhome.
  pose proof (l1b_path_home os1 os2 Hpw Hhome) as Hpath.
  split; [ exact Hpath | ].
  intros Halike. unfold run_in, run.
  rewrite (notebook_alike _ _ Halike os1 (init f)).
  unfold notebook, cell1. by rewrite Hpath.
Qed.

Lemma only_home_matters_witness :
  l1b_path Sample.alice = l1b_path Cases.alice_utf8
  ∧ run_in Cases.proxy_world Sample.alice ∅ = run_in Cases.proxy_world Cases.alice_utf8 ∅.
Proof.
  destruct (only_home_matters Cases.proxy_world Sample.alice Cases.alice_utf8 ∅)
    as [Hpath Hrun]; [ reflexivity | vm_compute; reflexivity | ].
  split; [ exact Hpath | ].
  apply Hrun. split; intros; reflexivity.
Defined.

(** * The spatial mean of the scanning measurements *)

Lemma filter_ext_in {A} (P1 P2 : A -> Prop)
    `{!∀ x, Decision (P1 x), !∀ x, Decision (P2 x)} (l : list A) :
  (∀ x, x ∈ l -> P1 x ↔ P2 x) -> filter P1 l = filter P2 l.
Proof.
  induction l as [|a l IH]; intros Hiff; [ reflexivity | ].
  assert (Ha : P1 a ↔ P2 a) by (apply Hiff; left).
  assert (Hl : filter P1 l = filter P2 l).
  { apply IH. intros x Hx. apply Hiff. by right. }
  destruct (decide (P1 a)).
  - rewrite !filter_cons_True by tauto. by rewrite Hl.
  - rewrite !filter_cons_False by tauto. exact Hl.
Qed.

Lemma filter_fmap_blind {A} (f : A -> A) (P : A -> Prop)
    `{!∀ x, Decision (P x)} (l : list A) :
  (∀ x, P (f x) ↔ P x) -> filter P (f <$> l) = f <$> filter P l.
Proof.
  intros Hf. induction l as [|a l IH]; [ reflexivity | ].
  rewrite fmap_cons. destruct (decide (P a)).
  - rewrite (filter_cons_True P (f a)) by (by apply Hf).
    rewrite (filter_cons_True P a) by done. by rewrite fmap_cons, IH.
  - rewrite (filter_cons_False P (f a)) by (by rewrite Hf).
    rewrite (filter_cons_False P a) by done. exact IH.
Qed.

Lemma finite_values_cons s l :
  finite_values (s :: l)
  = match value s with
    | Fin q => q :: finite_values l
    | NaN => finite_values l
    end.
Proof. unfold finite_values. simpl. by destruct (value s). Qed.

(** The elements masked out do not count in a mean. *)
Lemma finite_values_masked m l :
  finite_values (mask_value m <$> l)
  = finite_values (filter (λ s, m_pred m s = true) l).
Proof.
  induction l as [|s l IH]; [ reflexivity | ].
  rewrite fmap_cons, finite_values_cons. simpl value.
  destruct (m_pred m s) eqn:Hs.
  - rewrite filter_cons_True by exact Hs. by rewrite finite_values_cons, IH.
  - rewrite filter_cons_False by (by rewrite Hs). exact IH.
Qed.

(** An element at which the condition holds is not dropped. *)
Lemma selected_survives m l s :
  s ∈ l -> m_pred m s = true -> survives m l s = true.
Proof.
  intros Hin Hs. unfold survives. apply forallb_forall. intros d _.
  destruct (index s !! d) as [x|] eqn:Hx; [ | reflexivity ].
  apply bool_decide_eq_true. unfold kept_labels.
  apply list_elem_of_omap. exists s. split; [ | exact Hx ].
  apply list_elem_of_filter. auto.
Qed.

(** The elements of [v.where(m, drop=True)] that satisfy [R] and count in
    a mean are the elements of [v] that satisfy [R] and the condition. *)
Lemma finite_values_where (R : sample -> Prop) `{!∀ s, Decision (R s)} m v :
  blind R ->
  finite_values (filter R (samples (where_var m true v)))
  = finite_values (filter (λ s, R s ∧ m_pred m s = true) (samples v)).
Proof.
  intros HR. simpl.
  rewrite (filter_fmap_blind _ R) by apply HR.
  rewrite finite_values_masked, !list_filter_filter.
  f_equal. apply filter_ext_in. intros s Hs. split.
  - intros [[Hm Hr] _]. auto.
  - intros [Hr Hm]. split; [ by split | ]. by apply selected_survives.
Qed.

Lemma blind_group ds k : blind (λ s, reduced_index ds s = k).
Proof. intros m s. reflexivity. Qed.

Lemma blind_and (R : sample -> Prop) m0 :
  blind R -> (∀ m s, m_pred m0 (mask_value m s) = m_pred m0 s) ->
  blind (λ s, R s ∧ m_pred m0 s = true).
Proof.
  intros HR Hm m s. rewrite Hm. pose proof (HR m s) as Hiff. tauto.
Qed.

Lemma within_blind tpl da m s :
  m_pred (within tpl da) (mask_value m s) = m_pred (within tpl da) s.
Proof. reflexivity. Qed.

(** The two conditions of cell 17 together are [averaged]. *)
Lemma within_averaged distance altitude s :
  da_name distance = "distance" -> da_name altitude = "altitude" ->
  m_pred (within distance_tpl distance) s && m_pred (within altitude_tpl altitude) s
  = averaged s.
Proof.
  intros Hd Ha. unfold within, mask_and, lt_da, da_le, averaged. simpl.
  rewrite Hd, Ha. by rewrite andb_assoc.
Qed.

Lemma Qlt_bool_iff x y : Qlt_bool x y = true ↔ (x < y)%Q.
Proof.
  unfold Qlt_bool. rewrite negb_true_iff. split.
  - intros H. apply Qnot_le_lt. intros Hle. apply Qle_bool_iff in Hle. congruence.
  - intros H. destruct (Qle_bool y x) eqn:Hle; [ | reflexivity ].
    apply Qle_bool_iff in Hle. by apply Qlt_not_le in H.
Qed.

Lemma in_half_open_bool lo hi x :
  fp_lt (Fin lo) x && fp_le x (Fin hi) = true ↔ in_half_open lo hi x.
Proof.
  destruct x as [|q]; simpl; [ by split | ].
  by rewrite andb_true_iff, Qlt_bool_iff, Qle_bool_iff.
Qed.

Lemma averaged_iff s :
  averaged s = true
  ↔ in_half_open 2980 3020 (coord_at "distance" s)
    ∧ in_half_open 60 100 (coord_at "altitude" s).
Proof.
  unfold averaged. rewrite <- !in_half_open_bool, <- andb_assoc.
  rewrite (andb_true_iff (_ && _)). reflexivity.
Qed.

(** What cell 17 computes when it returns. *)
Lemma mean_scanning_returns lib ds st m :
  (mean_scanning lib ds st).1 = Ok m ->
  ∃ distance altitude,
    da_name distance = "distance" ∧ da_name altitude = "altitude"
    ∧ m = mean_ds ["angle"; "range"] true
            (where_ds (within altitude_tpl altitude) true
               (where_ds (within distance_tpl distance) true ds)).
Proof.
  intros Hm.
  assert (H : wp (mean_scanning lib ds)
                (λ m _, ∃ distance altitude,
                   da_name distance = "distance" ∧ da_name altitude = "altitude"
                   ∧ m = mean_ds ["angle"; "range"] true
                           (where_ds (within altitude_tpl altitude) true
                              (where_ds (within distance_tpl distance) true ds)))
                (λ _ _, True) st).
  { unfold mean_scanning, getvar, where_, mean.
    wp_ok; try exact Logic.I.
    all: eexists _, _.
    all: split; [ | split ]; [ | | reflexivity ]; reflexivity. }
  unfold wp in H. destruct (mean_scanning lib ds st) as [[m'|e] st']; [ | discriminate ].
  simpl in Hm. by injection Hm as <-.
Qed.

(** C9.  The spatial averaging of the selected scanning data leaves the
    attributes of every variable as they are in the scanning dataset: the
    mean over the angle and range dimensions is taken with
    [keep_attrs=True], and the selection before it keeps attributes
    too. *)
Theorem mean_keeps_attributes lib scanning_ds st mean_scanning_ds name :
  (mean_scanning lib scanning_ds st).1 = Ok mean_scanning_ds ->
  attrs <$> (ds_vars mean_scanning_ds !! name)
  = attrs <$> (ds_vars scanning_ds !! name).
Proof.
  intros Hm. apply mean_scanning_returns in Hm as (distance & altitude & _ & _ & ->).
  simpl. rewrite !lookup_fmap. by destruct (ds_vars scanning_ds !! name).
Qed.

(** Without [keep_attrs] the mean has no attributes. *)
Lemma mean_without_keep_attrs ds v : attrs (mean_var ds false v) = ∅.
Proof. reflexivity. Qed.

Lemma nanmean_finite_values l1 l2 :
  finite_values l1 = finite_values l2 -> nanmean l1 = nanmean l2.
Proof. unfold nanmean. by intros ->. Qed.

(** A data point inside the two intervals is still there, at its
    position, after the two selections of cell 17. *)
Lemma selected_stays distance altitude v s :
  da_name distance = "distance" -> da_name altitude = "altitude" ->
  s ∈ samples v -> averaged s = true ->
  ∃ s', s' ∈ samples (where_var (within altitude_tpl altitude) true
                        (where_var (within distance_tpl distance) true v))
        ∧ index s' = index s.
Proof.
  intros Hd Ha Hs Hav.
  rewrite <- (within_averaged distance altitude s Hd Ha) in Hav.
  apply andb_true_iff in Hav as [H1 H2].
  set (m1 := within distance_tpl distance) in *.
  set (m2 := within altitude_tpl altitude) in *.
  assert (Hs1 : mask_value m1 s ∈ samples (where_var m1 true v)).
  { cbn [samples where_var]. apply list_elem_of_fmap. exists s. split; [ reflexivity | ].
    apply list_elem_of_filter. split; [ | exact Hs ]. by apply selected_survives. }
  exists (mask_value m2 (mask_value m1 s)). split; [ | reflexivity ].
  cbn [samples where_var]. apply list_elem_of_fmap.
  exists (mask_value m1 s). split; [ reflexivity | ].
  apply list_elem_of_filter. split; [ | exact Hs1 ].
  apply selected_survives; [ exact Hs1 | exact H2 ].
Qed.

(** C8.  In the scanning time-series step, every scan that has a data
    point whose distance lies in (2980, 3020] and whose altitude lies in
    (60, 100] gets a mean, no scan gets two, and the mean of a variable
    at a scan start time is the mean (over the elements that are not NaN)
    of exactly those data points of that scan whose distance lies in
    (2980, 3020] and whose altitude lies in (60, 100]: the lower bounds
    are excluded and the upper bounds included. *)
Theorem spatial_average_selection lib scanning_ds st mean_scanning_ds name v :
  (mean_scanning lib scanning_ds st).1 = Ok mean_scanning_ds ->
  ds_vars scanning_ds !! name = Some v ->
  (∃ v', ds_vars mean_scanning_ds !! name = Some v'
         ∧ (∀ s, s ∈ samples v ->
              in_half_open 2980 3020 (coord_at "distance" s)
              ∧ in_half_open 60 100 (coord_at "altitude" s) ->
              ∃ r, r ∈ samples v' ∧ index r = reduced_index ["angle"; "range"] s)
         ∧ NoDup (index <$> samples v')
         ∧ ∀ r, r ∈ samples v' ->
             value r
             = nanmean
                 (filter
                    (λ s, in_half_open 2980 3020 (coord_at "distance" s)
                          ∧ in_half_open 60 100 (coord_at "altitude" s))
                    (group_of ["angle"; "range"] (index r) (samples v))))
  ∧ ¬ in_half_open 2980 3020 (Fin 2980) ∧ in_half_open 2980 3020 (Fin 3020)
  ∧ ¬ in_half_open 60 100 (Fin 60) ∧ in_half_open 60 100 (Fin 100).
Proof.
  intros Hm Hv. split.
  2:{ unfold in_half_open, Qlt, Qle. simpl. lia. }
  apply mean_scanning_returns in Hm as (distance & altitude & Hd & Ha & ->).
  eexists. split.
  { simpl. rewrite !lookup_fmap, Hv. reflexivity. }
  split.
  { intros s Hs Hin. apply averaged_iff in Hin.
    destruct (selected_stays distance altitude v s Hd Ha Hs Hin) as (s' & Hs' & Hidx).
    eexists. split.
    - cbn [samples mean_var]. apply list_elem_of_fmap.
      exists (reduced_index ["angle"; "range"] s'). split; [ reflexivity | ].
      apply elem_of_remove_dups, list_elem_of_fmap. exists s'. by split.
    - cbn [index]. unfold reduced_index. by rewrite Hidx. }
  split.
  { cbn [samples mean_var]. rewrite <- list_fmap_compose.
    change (index ∘ _) with (@id (gmap string Q)). rewrite list_fmap_id.
    apply NoDup_remove_dups. }
  intros r Hr. cbn [samples mean_var] in Hr.
  apply list_elem_of_fmap in Hr as (k & -> & _). cbn [value index].
  apply nanmean_finite_values. unfold group_of.
  rewrite (finite_values_where _ _ _ (blind_group _ _)).
  rewrite (finite_values_where _ _ _
             (blind_and _ _ (blind_group _ _) (within_blind _ _))).
  rewrite list_filter_filter. f_equal. apply list_filter_iff. intros s.
  rewrite <- averaged_iff, <- (within_averaged distance altitude s Hd Ha).
  rewrite andb_true_iff. tauto.
Qed.

(** On the sample, cell 17 returns. *)
Example sample_mean_scanning :
  (mean_scanning Sample.lib Sample.scanning_ds (init ∅)).1 = Ok Sample.mean_scanning_ds.
Proof. vm_cast_no_check (eq_refl (Ok Sample.mean_scanning_ds)). Qed.

Lemma mean_keeps_attributes_witness :
  attrs <$> (ds_vars Sample.mean_scanning_ds !! "particulate_backscatter_532nm")
  = attrs <$> (ds_vars Sample.scanning_ds !! "particulate_backscatter_532nm").
Proof.
  apply (mean_keeps_attributes Sample.lib Sample.scanning_ds (init ∅)).
  vm_cast_no_check (eq_refl (Ok Sample.mean_scanning_ds)).
Defined.

Lemma spatial_average_selection_witness :
  (∃ v', ds_vars Sample.mean_scanning_ds !! "particulate_backscatter_532nm" = Some v'
         ∧ (∀ s, s ∈ samples (Sample.var "particulate_backscatter") ->
              in_half_open 2980 3020 (coord_at "distance" s)
              ∧ in_half_open 60 100 (coord_at "altitude" s) ->
              ∃ r, r ∈ samples v' ∧ index r = reduced_index ["angle"; "range"] s)
         ∧ NoDup (index <$> samples v')
         ∧ ∀ r, r ∈ samples v' ->
             value r
             = nanmean
                 (filter
                    (λ s, in_half_open 2980 3020 (coord_at "distance" s)
                          ∧ in_half_open 60 100 (coord_at "altitude" s))
                    (group_of ["angle"; "range"] (index r)
                       (samples (Sample.var "particulate_backscatter")))))
  ∧ ¬ in_half_open 2980 3020 (Fin 2980) ∧ in_half_open 2980 3020 (Fin 3020)
  ∧ ¬ in_half_open 60 100 (Fin 60) ∧ in_half_open 60 100 (Fin 100).
Proof.
  apply (spatial_average_selection Sample.lib Sample.scanning_ds (init ∅)).
  - vm_cast_no_check (eq_refl (Ok Sample.mean_scanning_ds)).
  - vm_cast_no_check (eq_refl (Some (Sample.var "particulate_backscatter"))).
Defined.

(** On the sample, each of the two scans has a mean.  That of the first
    scan takes the four points with distance 3000 or 3020 and altitude 80
    or 100, with values 16, 32, 128 and 256, and leaves out the points at
    distance 2980 and those at altitude 60; that of the second leaves out
    the point that is NaN as well. *)
Example sample_means :
  (λ v, (λ r, (index r, value r)) <$> samples v) <$>
    (ds_vars Sample.mean_scanning_ds !! "particulate_backscatter_532nm")
  = Some [ ({[ "start_time" := 0%Q ]}, Fin ((16 + (32 + (128 + (256 + 0)))) / 4)%Q);
           ({[ "start_time" := 1%Q ]}, Fin ((96 + (384 + (768 + 0))) / 3)%Q) ].
Proof. vm_compute. reflexivity. Qed.

(** * The conversion script *)

Module ScriptFacts.

Import Script.




(** C7, at a script kept in a directory whose path has a space (and no
    pattern character): the script finds its directory, but the unquoted
    [${SCRIPTPATH}] is split at the space, and nbconvert is told to write
    to [/srv/hsrl]. *)
Lemma output_dir_of_spaced_path :
  SCRIPTPATH Sample.spaced_host = "/srv/hsrl demo/examples"
  ∧ argv Sample.spaced_host
    = [ "jupyter"; "nbconvert"; "--to"; "html_ch"; "/srv/hsrl";
        "demo/examples/read_display_uw_hsrl_scanning.ipynb"; "--no-input";
        "--output-dir=/srv/hsrl"; "demo/examples" ]
  ∧ output_dir (argv Sample.spaced_host) = Some "/srv/hsrl".
Proof. vm_compute. auto. Qed.

(** ** A directory without white space *)

Lemma split_no_ifs cs cur :
  Forall (λ cb : ascii * bool, cb.2 && is_ifs cb.1 = false) cs ->
  split cs cur
  = match (rev cur ++ cs.*1)%list with
    | [] => []
    | l => [string_of_list_ascii l]
    end.
Proof.
  intros Hcs. revert cur. induction Hcs as [|[c b] r Hc _ IH]; intros cur.
  - simpl. rewrite app_nil_r. destruct cur as [|a cur]; [ reflexivity | ].
    simpl. destruct (rev cur ++ [a])%list eqn:E; [ | reflexivity ].
    by destruct (rev cur).
  - simpl in *. rewrite Hc, IH. simpl. by rewrite <- app_assoc.
Qed.

Lemma string_of_list_ascii_app a b :
  string_of_list_ascii (list_ascii_of_string a ++ list_ascii_of_string b) = a +:+ b.
Proof.
  induction a as [|c a IH]; simpl.
  - apply string_of_list_ascii_of_string.
  - by rewrite IH.
Qed.

Lemma strip_prefix_app p s : strip_prefix p (p +:+ s) = Some s.
Proof.
  induction p as [|c p IH]; simpl; [ by destruct s | ].
  by rewrite Ascii.eqb_refl.
Qed.

Lemma mark_lit_unquoted a d :
  mark [Lit a; Unquoted d]
  = (((λ c, (c, false)) <$> list_ascii_of_string a)
     ++ ((λ c, (c, true)) <$> list_ascii_of_string d))%list.
Proof. unfold mark. simpl. by rewrite app_nil_r. Qed.

Lemma has_pattern_app a b : has_pattern (a +:+ b) = has_pattern a || has_pattern b.
Proof. unfold has_pattern. by rewrite list_ascii_of_string_app, existsb_app. Qed.

Lemma has_pattern_false s :
  Forall (λ c, is_pattern_char c = false) (list_ascii_of_string s) ->
  has_pattern s = false.
Proof.
  unfold has_pattern. induction 1 as [|c l Hc _ IH]; [ reflexivity | ].
  simpl. by rewrite Hc, IH.
Qed.

(** A word that field splitting leaves in one piece, without pattern
    characters, is one argument. *)
Lemma expand_word_one g w s :
  split (mark w) [] = [s] -> has_pattern s = false -> expand_word g w = [s].
Proof.
  intros Hw Hs. unfold expand_word. rewrite Hw.
  change ([s] ≫= pathname_expansion g) with (pathname_expansion g s ++ [])%list.
  unfold pathname_expansion. by rewrite Hs.
Qed.

(** A literal followed by the expansion of a value without white space is
    one field. *)
Lemma split_lit_unquoted a d :
  a ≠ "" ->
  Forall (λ c, is_ifs c = false) (list_ascii_of_string d) ->
  split (mark [Lit a; Unquoted d]) [] = [a +:+ d].
Proof.
  intros Ha Hd. rewrite mark_lit_unquoted, split_no_ifs.
  - rewrite fmap_app, <- !list_fmap_compose.
    change (fst ∘ (λ c : ascii, (c, false))) with (@id ascii).
    change (fst ∘ (λ c : ascii, (c, true))) with (@id ascii).
    rewrite !list_fmap_id. simpl rev. rewrite app_nil_l.
    rewrite <- string_of_list_ascii_app.
    destruct a as [|c a]; [ done | reflexivity ].
  - apply Forall_app. split; apply Forall_fmap, Forall_forall.
    + by intros.
    + intros c Hc. simpl. by apply (proj1 (Forall_forall _ _) Hd).
Qed.

Lemma command_subst_no_ifs d :
  Forall (λ c, is_ifs c = false) (list_ascii_of_string d) -> command_subst d = d.
Proof.
  intros Hd. unfold command_subst.
  assert (Hrev : drop_newlines (rev (list_ascii_of_string d))
                 = rev (list_ascii_of_string d)).
  { apply Forall_rev in Hd. destruct Hd as [|c r Hc _]; [ reflexivity | ].
    simpl. unfold is_ifs in Hc. apply orb_false_elim in Hc as [_ Hc].
    by rewrite Hc. }
  rewrite Hrev, rev_involutive. apply string_of_list_ascii_of_string.
Qed.

(** When the script's directory (where [cd] leads) has neither white
    space nor a pattern character in its path, the output directory is
    that directory, whatever the working directory the script is run
    from. *)
Lemma output_dir_is_script_dir h d :
  cd h (command_subst (dirname (arg0 h))) = Some d ->
  Forall (λ c, is_ifs c = false) (list_ascii_of_string d) ->
  Forall (λ c, is_pattern_char c = false) (list_ascii_of_string d) ->
  output_dir (argv h) = Some d.
Proof.
  intros Hcd Hd Hg. unfold argv, SCRIPTPATH. rewrite Hcd, (command_subst_no_ifs d Hd).
  unfold nbconvert_words, expand_command.
  change [ [Lit "jupyter"]; [Lit "nbconvert"]; [Lit "--to"]; [Lit "html_ch"];
           [Unquoted d; Lit "/read_display_uw_hsrl_scanning.ipynb"];
           [Lit "--no-input"]; [Lit "--output-dir="; Unquoted d] ]
    with ([ [Lit "jupyter"]; [Lit "nbconvert"]; [Lit "--to"]; [Lit "html_ch"];
            [Unquoted d; Lit "/read_display_uw_hsrl_scanning.ipynb"];
            [Lit "--no-input"] ] ++ [ [Lit "--output-dir="; Unquoted d] ])%list.
  rewrite bind_app.
  change ([ [Lit "--output-dir="; Unquoted d] ] ≫= expand_word (glob h))
    with (expand_word (glob h) [Lit "--output-dir="; Unquoted d] ++ [])%list.
  rewrite app_nil_r.
  rewrite (expand_word_one _ _ ("--output-dir=" +:+ d));
    [ | by apply split_lit_unquoted
      | rewrite has_pattern_app; by rewrite (has_pattern_false d Hg) ].
  unfold output_dir. rewrite omap_app.
  change (omap (strip_prefix "--output-dir=") ["--output-dir=" +:+ d])
    with (match strip_prefix "--output-dir=" ("--output-dir=" +:+ d) with
          | Some y => [y]
          | None => []
          end).
  rewrite strip_prefix_app. apply last_snoc.
Qed.

Example output_dir_of_plain_path :
  output_dir (argv Sample.plain_host) = Some "/srv/hsrl/examples".
Proof. vm_compute. reflexivity. Qed.

End ScriptFacts.

(** * More on the download step *)

(** X1: the size printed after a download is the tenth of a GB nearest to
    the [Content-Length]; a size half-way between two tenths goes to the
    even one.  (A [Content-Length] below [2^53] is an exact float, and so
    is its quotient by [1024**3].) *)
Theorem gb_tenths_nearest n :
  0 <= n < 2 ^ 53 ->
  Z.abs (10 * n - 2 ^ 30 * gb_tenths n) <= 2 ^ 29
  ∧ (Z.abs (10 * n - 2 ^ 30 * gb_tenths n) = 2 ^ 29 -> Z.even (gb_tenths n) = true).
Proof.
  intros _. unfold gb_tenths.
  pose proof (Z.div_mod (10 * n) (2 ^ 30) ltac:(lia)) as Hdm.
  pose proof (Z.mod_pos_bound (10 * n) (2 ^ 30) ltac:(lia)) as Hr.
  set (q := (10 * n) / 2 ^ 30) in *. set (r := (10 * n) mod 2 ^ 30) in *.
  change (2 ^ 30) with 1073741824 in *. change (2 ^ 29) with 536870912.
  destruct (2 * r <? 1073741824) eqn:H1; [ apply Z.ltb_lt in H1; lia | ].
  apply Z.ltb_ge in H1.
  destruct (1073741824 <? 2 * r) eqn:H2; [ apply Z.ltb_lt in H2; lia | ].
  apply Z.ltb_ge in H2.
  destruct (Z.even q) eqn:He; [ split; [ lia | auto ] | ].
  split; [ lia | intros _ ].
  rewrite Z.even_add, He. reflexivity.
Qed.

(** A quarter of a GB is half-way between two tenths: 0.2 is printed. *)
Lemma gb_tenths_nearest_witness :
  Z.abs (10 * 268435456 - 2 ^ 30 * gb_tenths 268435456) <= 2 ^ 29
  ∧ Z.even (gb_tenths 268435456) = true.
Proof.
  destruct (gb_tenths_nearest 268435456) as [H1 H2]; [ lia | ].
  split; [ exact H1 | apply H2; reflexivity ].
Defined.

Section Download.

Context (lib : Lib).

Lemma length_push st c : length (trace (push st c)) = S (length (trace st)).
Proof. simpl. rewrite length_app. simpl. lia. Qed.

Lemma run_as_wp {A} (m : M A) (P : result A -> State -> Prop) st :
  wp m (λ a, P (Ok a)) (λ e, P (Raised e)) st -> P (m st).1 (m st).2.
Proof. unfold wp. by destruct (m st) as [[a|e] st']. Qed.

Ltac new_calls_now :=
  erewrite new_calls_trace by (simpl; rewrite <- ?app_assoc; simpl; reflexivity);
  reflexivity.

(** X2: where the file is absent, the server answers with a
    [Content-Length] below [2^53] and no call fails, the download step
    returns and the cache path holds the body sent; the three calls made
    are the presence check, the download and the print of the size, to
    the nearest tenth of a GB, and of the cache path. *)
Theorem download_writes_the_body p st r n :
  fs st !! p = None ->
  remote lib remote_l1b_url_str = Some r ->
  content_length r = Some n ->
  0 <= n < 2 ^ 53 ->
  fault lib (length (trace st)) (CExists p) = None ->
  fault lib (S (length (trace st))) (CUrlretrieve remote_l1b_url_str p) = None ->
  fault lib (S (S (length (trace st))))
    (CPrint {| msg_gb_tenths := gb_tenths n; msg_path := p |}) = None ->
  (download_step lib p st).1 = Ok ()
  ∧ fs (download_step lib p st).2 !! p = Some (body r)
  ∧ new_calls st (download_step lib p st).2
    = [ CExists p; CUrlretrieve remote_l1b_url_str p;
        CPrint {| msg_gb_tenths := gb_tenths n; msg_path := p |} ].
Proof.
  intros Hp Hr Hn _ H0 H1 H2.
  apply (run_as_wp (download_step lib p)
           (λ res st', res = Ok () ∧ fs st' !! p = Some (body r)
                       ∧ new_calls st st' = _)).
  unfold download_step, path_exists, urlretrieve, py_int, print.
  wp_pure. rewrite wp_perform, H0. wp_pure. simpl fs. rewrite Hp.
  rewrite bool_decide_eq_false_2 by (intros [x Hx]; discriminate).
  wp_pure. rewrite wp_perform, length_push, H1, Hr. wp_pure. rewrite Hn. wp_pure.
  rewrite wp_perform. simpl trace. rewrite !length_app. simpl length.
  rewrite !Nat.add_1_r, H2.
  split; [ reflexivity | ]. split; [ apply lookup_insert_eq | ]. new_calls_now.
Qed.

(** X3: when the server sends no [Content-Length], the download step
    raises [TypeError] at the conversion of the header, after the file
    has been written: the cache path holds the body. *)
Theorem download_without_content_length p st r :
  fs st !! p = None ->
  remote lib remote_l1b_url_str = Some r ->
  content_length r = None ->
  fault lib (length (trace st)) (CExists p) = None ->
  fault lib (S (length (trace st))) (CUrlretrieve remote_l1b_url_str p) = None ->
  (∃ msg, (download_step lib p st).1 = Raised (TypeError msg))
  ∧ fs (download_step lib p st).2 !! p = Some (body r)
  ∧ new_calls st (download_step lib p st).2
    = [ CExists p; CUrlretrieve remote_l1b_url_str p ].
Proof.
  intros Hp Hr Hn H0 H1.
  apply (run_as_wp (download_step lib p)
           (λ res st', (∃ msg, res = Raised (TypeError msg))
                       ∧ fs st' !! p = Some (body r) ∧ new_calls st st' = _)).
  unfold download_step, path_exists, urlretrieve, py_int, print.
  wp_pure. rewrite wp_perform, H0. wp_pure. simpl fs. rewrite Hp.
  rewrite bool_decide_eq_false_2 by (intros [x Hx]; discriminate).
  wp_pure. rewrite wp_perform, length_push, H1, Hr. wp_pure. rewrite Hn. wp_pure.
  split; [ eauto | ]. split; [ apply lookup_insert_eq | ]. new_calls_now.
Qed.

(** X4: when the server does not answer, the download step raises
    [URLError] and leaves the file system as it was: nothing is cached. *)
Theorem download_without_answer p st :
  fs st !! p = None ->
  remote lib remote_l1b_url_str = None ->
  fault lib (length (trace st)) (CExists p) = None ->
  fault lib (S (length (trace st))) (CUrlretrieve remote_l1b_url_str p) = None ->
  (download_step lib p st).1 = Raised (URLError remote_l1b_url_str)
  ∧ fs (download_step lib p st).2 = fs st
  ∧ new_calls st (download_step lib p st).2
    = [ CExists p; CUrlretrieve remote_l1b_url_str p ].
Proof.
  intros Hp Hr H0 H1.
  apply (run_as_wp (download_step lib p)
           (λ res st', res = Raised (URLError remote_l1b_url_str)
                       ∧ fs st' = fs st ∧ new_calls st st' = _)).
  unfold download_step, path_exists, urlretrieve, py_int, print.
  wp_pure. rewrite wp_perform, H0. wp_pure. simpl fs. rewrite Hp.
  rewrite bool_decide_eq_false_2 by (intros [x Hx]; discriminate).
  wp_pure. rewrite wp_perform, length_push, H1, Hr. wp_pure.
  split; [ reflexivity | ]. split; [ reflexivity | ]. new_calls_now.
Qed.

End Download.

Lemma download_writes_the_body_witness :
  (download_step Sample.lib Sample.alice_l1b (init ∅)).1 = Ok ()
  ∧ fs (download_step Sample.lib Sample.alice_l1b (init ∅)).2 !! Sample.alice_l1b
    = Some Sample.l1b
  ∧ new_calls (init ∅) (download_step Sample.lib Sample.alice_l1b (init ∅)).2
    = [ CExists Sample.alice_l1b;
        CUrlretrieve remote_l1b_url_str Sample.alice_l1b;
        CPrint {| msg_gb_tenths := gb_tenths 1500000000;
                  msg_path := Sample.alice_l1b |} ].
Proof.
  apply (download_writes_the_body Sample.lib Sample.alice_l1b (init ∅)
           {| body := Sample.l1b; content_length := Some 1500000000 |} 1500000000);
    first [ reflexivity | lia ].
Defined.

Lemma download_without_content_length_witness :
  (∃ msg, (download_step Cases.lib_no_length Sample.alice_l1b (init ∅)).1
          = Raised (TypeError msg))
  ∧ fs (download_step Cases.lib_no_length Sample.alice_l1b (init ∅)).2
      !! Sample.alice_l1b = Some Sample.l1b
  ∧ new_calls (init ∅) (download_step Cases.lib_no_length Sample.alice_l1b (init ∅)).2
    = [ CExists Sample.alice_l1b; CUrlretrieve remote_l1b_url_str Sample.alice_l1b ].
Proof.
  apply (download_without_content_length Cases.lib_no_length Sample.alice_l1b (init ∅)
           {| body := Sample.l1b; content_length := None |});
    reflexivity.
Defined.

Lemma download_without_answer_witness :
  (download_step Cases.lib_offline Sample.alice_l1b (init ∅)).1
  = Raised (URLError remote_l1b_url_str)
  ∧ fs (download_step Cases.lib_offline Sample.alice_l1b (init ∅)).2 = fs (init ∅)
  ∧ new_calls (init ∅) (download_step Cases.lib_offline Sample.alice_l1b (init ∅)).2
    = [ CExists Sample.alice_l1b; CUrlretrieve remote_l1b_url_str Sample.alice_l1b ].
Proof.
  apply (download_without_answer Cases.lib_offline Sample.alice_l1b (init ∅));
    reflexivity.
Defined.

(** * More on whole runs *)

(** X6: after a run that returned, a second run of the notebook by the
    same user on the file system the first one left downloads nothing
    and prints nothing, whatever the server and the libraries do then. *)
Theorem second_run_downloads_nothing lib lib' os f c :
  (run lib os f).1 = Ok () ->
  c ∈ calls (run lib' os (fs (run lib os f).2)).2 ->
  is_fetch c = false ∧ is_print c = false.
Proof.
  intros Hok. unfold run in Hok.
  pose proof (notebook_present lib os f) as H. unfold wp in H.
  unfold run at 2. destruct (notebook lib os (init f)) as [[[]|e] st]; [ | discriminate ].
  destruct H as (p & Hp & Hfile & _). simpl.
  apply (notebook_no_download lib' os (fs st) p Hp Hfile).
Qed.

Lemma second_run_downloads_nothing_witness :
  is_fetch (CExists Sample.alice_l1b) = false
  ∧ is_print (CExists Sample.alice_l1b) = false.
Proof.
  apply (second_run_downloads_nothing Sample.lib Cases.lib_offline Sample.alice ∅).
  - vm_compute. reflexivity.
  - apply (list_elem_of_lookup_2 _ 2%nat).
    vm_cast_no_check (eq_refl (Some (CExists Sample.alice_l1b))).
Defined.

(** * More on the cache path *)

Lemma rstrip_slash_slash h : rstrip_slash (h +:+ "/") = rstrip_slash h.
Proof.
  unfold rstrip_slash. rewrite list_ascii_of_string_app, rev_app_distr. reflexivity.
Qed.

(** X7: when HOME is set, the password database is not consulted, and a
    trailing slash in HOME does not change the cache path. *)
Theorem home_trailing_slash os1 os2 h :
  environ os1 !! "HOME" = Some (h +:+ "/") ->
  environ os2 !! "HOME" = Some h ->
  l1b_path os1 = l1b_path os2.
Proof.
  intros H1 H2. unfold l1b_path, expanduser. rewrite H1, H2.
  by rewrite rstrip_slash_slash.
Qed.

Lemma home_trailing_slash_witness :
  l1b_path Cases.alice_slash = l1b_path Sample.alice.
Proof.
  apply (home_trailing_slash Cases.alice_slash Sample.alice "/home/alice");
    vm_compute; reflexivity.
Defined.

(** X8: a user without a home directory (no HOME, no entry in the password
    database) gets no further than the two imports of cell 1: the run
    raises, with [RuntimeError] when both imports succeed, the file system
    is untouched and nothing is asked of the network. *)
Theorem no_home_stops lib os f :
  environ os !! "HOME" = None ->
  pw_dir os = None ->
  (∃ e, (run lib os f).1 = Raised e)
  ∧ fs (run lib os f).2 = f
  ∧ (∀ c, c ∈ calls (run lib os f).2 ->
       c = CImport "urllib.request" ∨ c = CImport "pathlib")
  ∧ (fault lib 0 (CImport "urllib.request") = None ->
     fault lib 1 (CImport "pathlib") = None ->
     (run lib os f).1 = Raised (RuntimeError "Could not determine home directory.")).
Proof.
  intros Hhome Hpw.
  assert (Hpath : l1b_path os
                  = Raised (RuntimeError "Could not determine home directory.")).
  { unfold l1b_path, expanduser. by rewrite Hhome, Hpw. }
  unfold run.
  apply (run_as_wp (notebook lib os)
           (λ res st, (∃ e, res = Raised e) ∧ fs st = f
                      ∧ (∀ c, c ∈ calls st ->
                           c = CImport "urllib.request" ∨ c = CImport "pathlib")
                      ∧ (fault lib 0 (CImport "urllib.request") = None ->
                         fault lib 1 (CImport "pathlib") = None ->
                         res = Raised (RuntimeError "Could not determine home directory.")))).
  unfold notebook, cell1, import_.
  wp_pure. rewrite wp_perform. simpl length.
  destruct (fault lib 0 (CImport "urllib.request")) as [e|] eqn:H0.
  { split; [ eauto | ]. split; [ reflexivity | ]. split; [ | discriminate ].
    intros c Hc. apply list_elem_of_singleton in Hc. auto. }
  wp_pure. rewrite wp_perform. simpl length.
  destruct (fault lib 1 (CImport "pathlib")) as [e|] eqn:H1.
  { split; [ eauto | ]. split; [ reflexivity | ]. split; [ | discriminate ].
    intros c Hc. unfold calls in Hc. simpl in Hc. rewrite !elem_of_cons in Hc.
    destruct Hc as [-> | [-> | Hc]]; auto. by apply elem_of_nil in Hc. }
  wp_pure. rewrite Hpath.
  split; [ eauto | ]. split; [ reflexivity | ]. split; [ | auto ].
  intros c Hc. unfold calls in Hc. simpl in Hc. rewrite !elem_of_cons in Hc.
  destruct Hc as [-> | [-> | Hc]]; auto. by apply elem_of_nil in Hc.
Qed.

Lemma no_home_stops_witness :
  (∃ e, (run Cases.lib_offline Cases.nobody ∅).1 = Raised e)
  ∧ fs (run Cases.lib_offline Cases.nobody ∅).2 = ∅
  ∧ (∀ c, c ∈ calls (run Cases.lib_offline Cases.nobody ∅).2 ->
       c = CImport "urllib.request" ∨ c = CImport "pathlib")
  ∧ (fault Cases.lib_offline 0 (CImport "urllib.request") = None ->
     fault Cases.lib_offline 1 (CImport "pathlib") = None ->
     (run Cases.lib_offline Cases.nobody ∅).1
     = Raised (RuntimeError "Could not determine home directory.")).
Proof.
  apply (no_home_stops Cases.lib_offline Cases.nobody ∅); reflexivity.
Defined.

(** * More on the plotting cells *)

Lemma replace_underscore_clean s :
  Forall (λ c, c ≠ "_"%char) (list_ascii_of_string (replace_underscore s)).
Proof.
  induction s as [|c s IH]; simpl; constructor; [ | exact IH ].
  destruct (Ascii.eqb c "_") eqn:E; [ discriminate | ].
  by apply Ascii.eqb_neq.
Qed.

Lemma replace_underscore_length s :
  String.length (replace_underscore s) = String.length s.
Proof. induction s as [|c s IH]; simpl; [ reflexivity | by rewrite IH ]. Qed.

Section PlotCells.

Context (lib : Lib).

(** X9: a plot of a geophysical variable that is made takes its labels
    from the variable's attributes: its title is the [long_name] with
    every underscore replaced by a space (same length, no underscore
    left), and its colour-bar label is the [long_name] as it is, followed
    by the [units] in brackets where they are asked for. *)
Theorem geo_plot_labels kind ds name x y clim logz units st p :
  (geo_plot lib kind ds name x y clim logz units st).1 = Ok p ->
  ∃ v long_name,
    (ds_vars ds !! name = Some v
     ∨ (ds_vars ds !! name = None ∧ ds_coords ds !! name = Some v))
    ∧ attrs v !! "long_name" = Some long_name
    ∧ plot_key p = (ds_group ds, name, kind)
    ∧ p_title p = Some (replace_underscore long_name)
    ∧ Forall (λ c, c ≠ "_"%char) (list_ascii_of_string (replace_underscore long_name))
    ∧ String.length (replace_underscore long_name) = String.length long_name
    ∧ ∃ clabel,
        ("clabel", VStr clabel) ∈ p_kwargs p
        ∧ if units
          then ∃ u, attrs v !! "units" = Some u
                    ∧ clabel = long_name +:+ " [" +:+ u +:+ "]"
          else clabel = long_name.
Proof.
  intros Hp.
  assert (H : wp (geo_plot lib kind ds name x y clim logz units)
                (λ p _, ∃ v long_name,
                   (ds_vars ds !! name = Some v
                    ∨ (ds_vars ds !! name = None ∧ ds_coords ds !! name = Some v))
                   ∧ attrs v !! "long_name" = Some long_name
                   ∧ plot_key p = (ds_group ds, name, kind)
                   ∧ p_title p = Some (replace_underscore long_name)
                   ∧ Forall (λ c, c ≠ "_"%char)
                       (list_ascii_of_string (replace_underscore long_name))
                   ∧ String.length (replace_underscore long_name)
                     = String.length long_name
                   ∧ ∃ clabel,
                       ("clabel", VStr clabel) ∈ p_kwargs p
                       ∧ if units
                         then ∃ u, attrs v !! "units" = Some u
                                   ∧ clabel = long_name +:+ " [" +:+ u +:+ "]"
                         else clabel = long_name)
                (λ _ _, True) st).
  { unfold geo_plot, getvar, getattr, hvplot, opts_plot.
    destruct logz as [b|]; wp_ok; try exact Logic.I.
    all: simpl da_var in *; simpl da_group in *; simpl da_name in *.
    all: eexists _, _; split; [ eauto | ].
    all: split; [ eassumption | ].
    all: split; [ reflexivity | ].
    all: split; [ simpl; congruence | ].
    all: split; [ apply replace_underscore_clean | ].
    all: split; [ apply replace_underscore_length | ].
    all: eexists; split;
      [ simpl; rewrite !elem_of_cons; eauto 10 | simpl; eauto ]. }
  unfold wp in H.
  destruct (geo_plot lib kind ds name x y clim logz units st) as [[p'|e] st'];
    [ | discriminate ].
  simpl in Hp. by injection Hp as <-.
Qed.

(** X10: a plot of a geophysical variable asks nothing of the plotting
    library before it has found what it needs in the dataset: a variable
    that is missing raises [AttributeError], a missing [long_name] or,
    where the units are asked for, missing [units] raise [KeyError], each
    with the state as it was. *)
Theorem geo_plot_missing kind ds name x y clim logz units st :
  (ds_vars ds !! name = None -> ds_coords ds !! name = None ->
     geo_plot lib kind ds name x y clim logz units st
     = (Raised (AttributeError name), st))
  ∧ (∀ v, ds_vars ds !! name = Some v -> attrs v !! "long_name" = None ->
       geo_plot lib kind ds name x y clim logz units st
       = (Raised (KeyError "long_name"), st))
  ∧ (∀ v ln, ds_vars ds !! name = Some v -> attrs v !! "long_name" = Some ln ->
       units = true -> attrs v !! "units" = None ->
       geo_plot lib kind ds name x y clim logz units st
       = (Raised (KeyError "units"), st)).
Proof.
  unfold geo_plot, getvar, getattr, mbind, M_bind, mret, M_ret, raise.
  repeat split.
  - intros -> ->. reflexivity.
  - intros v -> Hl. simpl. rewrite Hl. reflexivity.
  - intros v ln -> Hl -> Hu. simpl. rewrite Hl, Hu. reflexivity.
Qed.

(** The spatial mean asks nothing of xarray when the dataset has no
    [distance]: it raises [AttributeError] with the state as it was. *)
Lemma mean_scanning_missing_distance ds st :
  ds_vars ds !! "distance" = None -> ds_coords ds !! "distance" = None ->
  mean_scanning lib ds st = (Raised (AttributeError "distance"), st).
Proof.
  intros Hv Hc. unfold mean_scanning, getvar, mbind, M_bind, raise.
  rewrite Hv, Hc. reflexivity.
Qed.

End PlotCells.

Lemma geo_plot_labels_witness :
  ∃ v long_name,
    (ds_vars Sample.scanning_ds !! "particulate_backscatter_532nm" = Some v
     ∨ (ds_vars Sample.scanning_ds !! "particulate_backscatter_532nm" = None
        ∧ ds_coords Sample.scanning_ds !! "particulate_backscatter_532nm" = Some v))
    ∧ attrs v !! "long_name" = Some long_name
    ∧ plot_key Cases.backscatter_plot
      = (ds_group Sample.scanning_ds, "particulate_backscatter_532nm", Quadmesh)
    ∧ p_title Cases.backscatter_plot = Some (replace_underscore long_name)
    ∧ Forall (λ c, c ≠ "_"%char) (list_ascii_of_string (replace_underscore long_name))
    ∧ String.length (replace_underscore long_name) = String.length long_name
    ∧ ∃ clabel,
        ("clabel", VStr clabel) ∈ p_kwargs Cases.backscatter_plot
        ∧ if true
          then ∃ u, attrs v !! "units" = Some u
                    ∧ clabel = long_name +:+ " [" +:+ u +:+ "]"
          else clabel = long_name.
Proof.
  apply (geo_plot_labels Sample.lib Quadmesh Sample.scanning_ds
           "particulate_backscatter_532nm" "distance" "altitude"
           (VTuple [VNum (1 # 100000000); VNum (1 # 10000)]) (Some true) true (init ∅)).
  vm_cast_no_check (eq_refl (Ok Cases.backscatter_plot)).
Defined.

Lemma geo_plot_missing_witness :
  geo_plot Sample.lib Default Cases.empty_ds "particulate_backscatter_532nm"
    "time" "altitude" VNone None false (init ∅)
  = (Raised (AttributeError "particulate_backscatter_532nm"), init ∅).
Proof.
  apply (proj1 (geo_plot_missing Sample.lib Default Cases.empty_ds
                  "particulate_backscatter_532nm" "time" "altitude" VNone None false
                  (init ∅)));
    reflexivity.
Defined.

(** X11: the order of the two selections of cell 17 does not matter for the
    means: selecting on altitude first and on distance second gives, at
    every scan, the same mean as the order the notebook uses. *)
Theorem selection_order_irrelevant tpl1 da1 tpl2 da2 v ds k :
  nanmean (group_of ds k
             (samples (where_var (within tpl2 da2) true
                         (where_var (within tpl1 da1) true v))))
  = nanmean (group_of ds k
               (samples (where_var (within tpl1 da1) true
                           (where_var (within tpl2 da2) true v)))).
Proof.
  apply nanmean_finite_values. unfold group_of.
  rewrite !(finite_values_where _ _ _ (blind_group _ _)).
  rewrite !(finite_values_where _ _ _
              (blind_and _ _ (blind_group _ _) (within_blind _ _))).
  f_equal. apply list_filter_iff. intros s. tauto.
Qed.

(** * More on paths *)

Lemma append_nil_r s : s +:+ "" = s.
Proof.
  induction s as [|c s IH]; [ reflexivity | ].
  change (String c (s +:+ "") = String c s). by rewrite IH.
Qed.

Lemma append_assoc a b c : (a +:+ b) +:+ c = a +:+ (b +:+ c).
Proof.
  induction a as [|x a IH]; [ reflexivity | ].
  change (String x ((a +:+ b) +:+ c) = String x (a +:+ (b +:+ c))). by rewrite IH.
Qed.

(** The name of a path that is one component. *)
Lemma name_from_no_slash n cur last :
  no_slash n ->
  name_from n cur last
  = if bool_decide (cur +:+ n = "" ∨ cur +:+ n = ".") then last else cur +:+ n.
Proof.
  unfold no_slash. revert cur. induction n as [|c n IH]; intros cur Hn.
  - rewrite append_nil_r. reflexivity.
  - simpl in Hn. apply Forall_cons in Hn as [Hc Hn].
    apply Ascii.eqb_neq in Hc. cbn [name_from]. rewrite Hc, (IH _ Hn), append_assoc.
    reflexivity.
Qed.

(** The name of a path that ends in a slash and a component. *)
Lemma name_from_slash_name a n cur last :
  no_slash n -> n ≠ "" -> n ≠ "." ->
  name_from (a +:+ String slash n) cur last = n.
Proof.
  intros Hn H0 H1. revert cur last. induction a as [|c a IH]; intros cur last.
  - change ("" +:+ String slash n) with (String slash n). cbn [name_from].
    rewrite Ascii.eqb_refl, (name_from_no_slash n "" _ Hn).
    change ("" +:+ n) with n.
    rewrite bool_decide_eq_false_2; [ reflexivity | tauto ].
  - change (String c a +:+ String slash n) with (String c (a +:+ String slash n)).
    cbn [name_from]. destruct (Ascii.eqb c slash); apply IH.
Qed.

Lemma path_name_joinpath d n :
  no_slash n -> n ≠ "" -> n ≠ "." -> path_name (joinpath d n) = n.
Proof.
  intros Hn H0 H1. unfold path_name, joinpath. case_bool_decide.
  - apply (name_from_slash_name "" n "" "" Hn H0 H1).
  - change (d +:+ "/" +:+ n) with (d +:+ String slash n).
    apply (name_from_slash_name d n "" "" Hn H0 H1).
Qed.

(** X12: whatever the home directory, the cache file has the name of the
    remote file: the last component of the cache path is the last
    component of the URL. *)
Theorem cache_file_keeps_the_name os p :
  l1b_path os = Ok p -> path_name p = path_name remote_l1b_url_str.
Proof.
  unfold l1b_path. destruct (expanduser os) as [home|e]; [ | discriminate ].
  intros [= <-].
  change (path_name remote_l1b_url_str)
    with "bagohsrl_20230814T000000_20230815T000000_30.0s_7.5m_1.0deg_L1B_preliminary.nc".
  apply path_name_joinpath; [ | discriminate | discriminate ].
  unfold no_slash. simpl. repeat (constructor; [ discriminate | ]). constructor.
Qed.

Lemma cache_file_keeps_the_name_witness :
  path_name Sample.alice_l1b = path_name remote_l1b_url_str.
Proof.
  apply (cache_file_keeps_the_name Sample.alice). vm_compute. reflexivity.
Defined.

(** * More on the conversion script *)

Module ScriptPaths.

Import Script ScriptFacts.

Lemma drop_slashes_head c l : c ≠ slash -> drop_slashes (c :: l) = c :: l.
Proof. intros Hc. simpl. apply Ascii.eqb_neq in Hc. by rewrite Hc. Qed.

Lemma drop_component_app a b :
  Forall (λ c, c ≠ slash) a -> drop_component (a ++ slash :: b) = slash :: b.
Proof.
  induction 1 as [|c a Hc _ IH]; simpl.
  - reflexivity.
  - apply Ascii.eqb_neq in Hc. by rewrite Hc.
Qed.

Lemma drop_component_no_slash a :
  Forall (λ c, c ≠ slash) a -> drop_component a = [].
Proof.
  induction 1 as [|c a Hc _ IH]; simpl; [ reflexivity | ].
  apply Ascii.eqb_neq in Hc. by rewrite Hc.
Qed.

Lemma rev_component n :
  no_slash n -> n ≠ "" ->
  ∃ c t, rev (list_ascii_of_string n) = c :: t ∧ Forall (λ c, c ≠ slash) (c :: t).
Proof.
  intros Hn H0. apply Forall_rev in Hn.
  destruct (rev (list_ascii_of_string n)) as [|c t] eqn:E; [ | eauto ].
  apply (f_equal (@rev ascii)) in E. rewrite rev_involutive in E. simpl in E.
  apply (f_equal string_of_list_ascii) in E.
  rewrite string_of_list_ascii_of_string in E. by destruct H0.
Qed.

Lemma rstrip_slash_fixed d :
  rstrip_slash d = d ->
  drop_slashes (rev (list_ascii_of_string d)) = rev (list_ascii_of_string d).
Proof.
  unfold rstrip_slash. intros H. apply (f_equal list_ascii_of_string) in H.
  rewrite list_ascii_of_string_of_list_ascii in H.
  apply (f_equal (@rev ascii)) in H. by rewrite rev_involutive in H.
Qed.

(** [dirname] of a directory and a name under it is the directory. *)
Lemma dirname_joined d n :
  d ≠ "" -> rstrip_slash d = d -> no_slash n -> n ≠ "" ->
  dirname (d +:+ "/" +:+ n) = d.
Proof.
  intros Hd Hstrip Hn H0. unfold dirname.
  rewrite list_ascii_of_string_app.
  change (list_ascii_of_string ("/" +:+ n)) with (slash :: list_ascii_of_string n).
  rewrite rev_app_distr. simpl rev at 1. rewrite <- app_assoc. simpl app at 2.
  destruct (rev_component n Hn H0) as (c & t & -> & Hct).
  apply Forall_cons in Hct as Hc. destruct Hc as [Hc _].
  change ((c :: t) ++ slash :: rev (list_ascii_of_string d))%list
    with (c :: (t ++ slash :: rev (list_ascii_of_string d)))%list.
  rewrite (drop_slashes_head c _ Hc).
  change (c :: (t ++ slash :: rev (list_ascii_of_string d)))%list
    with ((c :: t) ++ slash :: rev (list_ascii_of_string d))%list.
  rewrite (drop_component_app _ _ Hct).
  change (drop_slashes (slash :: rev (list_ascii_of_string d)))
    with (drop_slashes (rev (list_ascii_of_string d))).
  rewrite (rstrip_slash_fixed d Hstrip).
  destruct (rev (list_ascii_of_string d)) as [|x r] eqn:E.
  - apply (f_equal (@rev ascii)) in E. rewrite rev_involutive in E. simpl in E.
    apply (f_equal string_of_list_ascii) in E.
    rewrite string_of_list_ascii_of_string in E. by destruct Hd.
  - rewrite <- E, rev_involutive. apply string_of_list_ascii_of_string.
Qed.

(** [dirname] of a bare name is ["."]. *)
Lemma dirname_bare n : no_slash n -> n ≠ "" -> dirname n = ".".
Proof.
  intros Hn H0. unfold dirname.
  destruct (rev_component n Hn H0) as (c & t & -> & Hct).
  apply Forall_cons in Hct as Hc. destruct Hc as [Hc _].
  by rewrite (drop_slashes_head c _ Hc), (drop_component_no_slash _ Hct).
Qed.

(** X13: run by a path [d/name] that does not begin with a dash (which
    [dirname] would take for an option), from whatever working directory,
    the script takes as its directory the physical path that [cd -- d]
    leads to ([d] and that path not ending in a newline, which [$( )]
    would strip). *)
Theorem scriptpath_of_a_path h d n d' :
  arg0 h = d +:+ "/" +:+ n ->
  d ≠ "" -> no_dash d -> rstrip_slash d = d -> no_slash n -> n ≠ "" ->
  command_subst d = d ->
  cd h d = Some d' ->
  command_subst d' = d' ->
  SCRIPTPATH h = d'.
Proof.
  intros Ha Hd _ Hstrip Hn H0 Hsub Hcd Hsub'. unfold SCRIPTPATH.
  by rewrite Ha, (dirname_joined d n Hd Hstrip Hn H0), Hsub, Hcd.
Qed.

Lemma scriptpath_of_a_path_witness :
  SCRIPTPATH Cases.relative_host = "/srv/hsrl/examples".
Proof.
  apply (scriptpath_of_a_path Cases.relative_host "examples" "convert.sh");
    try (vm_compute; reflexivity); try discriminate.
  unfold no_slash. simpl. repeat (constructor; [ discriminate | ]). constructor.
Defined.

(** X14: run by its bare name, the script takes as its directory the
    working directory it is run from (what [cd -- .] leads to). *)
Theorem scriptpath_of_a_bare_name h d' :
  no_slash (arg0 h) -> arg0 h ≠ "" ->
  cd h "." = Some d' ->
  command_subst d' = d' ->
  SCRIPTPATH h = d'.
Proof.
  intros Hn H0 Hcd Hsub. unfold SCRIPTPATH.
  rewrite (dirname_bare _ Hn H0).
  change (command_subst ".") with ".". by rewrite Hcd.
Qed.

Lemma scriptpath_of_a_bare_name_witness :
  SCRIPTPATH Cases.bare_host = "/srv/hsrl/examples".
Proof.
  apply (scriptpath_of_a_bare_name Cases.bare_host);
    try (vm_compute; reflexivity); try discriminate.
  unfold no_slash. simpl. repeat (constructor; [ discriminate | ]). constructor.
Defined.

Lemma mark_unquoted_lit d a :
  mark [Unquoted d; Lit a]
  = (((λ c, (c, true)) <$> list_ascii_of_string d)
     ++ ((λ c, (c, false)) <$> list_ascii_of_string a))%list.
Proof. unfold mark. simpl. by rewrite app_nil_r. Qed.

(** The expansion of a value without white space followed by a literal is
    one field. *)
Lemma split_unquoted_lit d a :
  a ≠ "" -> no_ifs d -> split (mark [Unquoted d; Lit a]) [] = [d +:+ a].
Proof.
  intros Ha Hd. rewrite mark_unquoted_lit, split_no_ifs.
  - rewrite fmap_app, <- !list_fmap_compose.
    change (fst ∘ (λ c : ascii, (c, false))) with (@id ascii).
    change (fst ∘ (λ c : ascii, (c, true))) with (@id ascii).
    rewrite !list_fmap_id. simpl rev. rewrite app_nil_l.
    rewrite <- string_of_list_ascii_app.
    destruct (list_ascii_of_string d ++ list_ascii_of_string a)%list eqn:E;
      [ | reflexivity ].
    apply app_eq_nil in E as [_ E]. apply (f_equal string_of_list_ascii) in E.
    rewrite string_of_list_ascii_of_string in E. by destruct Ha.
  - apply Forall_app. split; apply Forall_fmap, Forall_forall.
    + intros c Hc. simpl. by apply (proj1 (Forall_forall _ _) Hd).
    + by intros.
Qed.

(** X15: when the path of the script's directory has neither white space
    nor a pattern character, the command has exactly seven arguments: the
    notebook converted is the one in the script's directory, the exporter
    is [html_ch], the inputs are left out and the output goes to the
    script's directory. *)
Theorem argv_of_a_plain_directory h :
  no_ifs (SCRIPTPATH h) ->
  no_glob (SCRIPTPATH h) ->
  argv h
  = [ "jupyter"; "nbconvert"; "--to"; "html_ch";
      SCRIPTPATH h +:+ "/read_display_uw_hsrl_scanning.ipynb";
      "--no-input";
      "--output-dir=" +:+ SCRIPTPATH h ].
Proof.
  intros Hsp Hg. unfold argv, expand_command, nbconvert_words.
  repeat rewrite bind_cons.
  rewrite (expand_word_one _ [Lit "--output-dir="; Unquoted (SCRIPTPATH h)]
             ("--output-dir=" +:+ SCRIPTPATH h));
    [ | by apply split_lit_unquoted
      | rewrite has_pattern_app; by rewrite (has_pattern_false _ Hg) ].
  rewrite (expand_word_one _
             [Unquoted (SCRIPTPATH h); Lit "/read_display_uw_hsrl_scanning.ipynb"]
             (SCRIPTPATH h +:+ "/read_display_uw_hsrl_scanning.ipynb"));
    [ | by apply split_unquoted_lit
      | rewrite has_pattern_app; by rewrite (has_pattern_false _ Hg) ].
  reflexivity.
Qed.

Lemma argv_of_a_plain_directory_witness :
  argv Sample.plain_host
  = [ "jupyter"; "nbconvert"; "--to"; "html_ch";
      SCRIPTPATH Sample.plain_host +:+ "/read_display_uw_hsrl_scanning.ipynb";
      "--no-input";
      "--output-dir=" +:+ SCRIPTPATH Sample.plain_host ].
Proof.
  apply (argv_of_a_plain_directory Sample.plain_host).
  - unfold no_ifs. vm_compute. repeat (constructor; [ reflexivity | ]). constructor.
  - unfold no_glob. vm_compute. repeat (constructor; [ reflexivity | ]). constructor.
Defined.

(** With a pattern character in the path of the script's directory, the
    shell passes what the pattern matches: here two notebooks, one of
    them in another directory, with a space in its path. *)
Example argv_of_a_pattern_directory :
  argv Cases.star_host
  = [ "jupyter"; "nbconvert"; "--to"; "html_ch";
      "/srv/g/a b/read_display_uw_hsrl_scanning.ipynb";
      "/srv/g/a*b/read_display_uw_hsrl_scanning.ipynb";
      "--no-input"; "--output-dir=/srv/g/a*b" ].
Proof. vm_compute. reflexivity. Qed.

(** ** Where white space in an argument can come from *)

(** The fields of a word hold the characters of the word, but for the
    white space at which the word is split. *)
Lemma split_Forall (P : ascii -> Prop) cs cur :
  Forall (λ cb : ascii * bool, cb.2 && is_ifs cb.1 = false -> P cb.1) cs ->
  Forall P cur ->
  Forall (λ s, Forall P (list_ascii_of_string s)) (split cs cur).
Proof.
  intros Hcs. revert cur. induction Hcs as [|[c b] r Hc _ IH]; intros cur Hcur.
  - simpl. destruct cur as [|x cur]; constructor; [ | constructor ].
    rewrite list_ascii_of_string_of_list_ascii. by apply Forall_rev.
  - simpl in *. destruct (b && is_ifs c) eqn:E.
    + destruct cur as [|x cur]; [ by apply IH | ].
      constructor; [ | by apply IH ].
      rewrite list_ascii_of_string_of_list_ascii. by apply Forall_rev.
    + apply IH. constructor; [ by apply Hc | exact Hcur ].
Qed.

(** No field has white space when the literal parts of the word have
    none. *)
Lemma fields_clean w : Forall clean_part w -> Forall no_ifs (split (mark w) []).
Proof.
  intros Hw. apply (split_Forall (λ c, is_ifs c = false)); [ | constructor ].
  unfold mark. induction Hw as [|p w Hp _ IH]; [ constructor | ].
  rewrite bind_cons. apply Forall_app. split; [ | exact IH ].
  destruct p as [s|v]; apply Forall_fmap, Forall_forall; simpl.
  - intros c Hc _. by apply (proj1 (Forall_forall _ _) Hp).
  - intros c _ H. exact H.
Qed.

(** No field has a pattern character when no part of the word has one. *)
Lemma fields_plain w : Forall plain_part w -> Forall no_glob (split (mark w) []).
Proof.
  intros Hw. apply (split_Forall (λ c, is_pattern_char c = false)); [ | constructor ].
  unfold mark. induction Hw as [|p w Hp _ IH]; [ constructor | ].
  rewrite bind_cons. apply Forall_app. split; [ | exact IH ].
  destruct p as [s|v]; apply Forall_fmap, Forall_forall; simpl;
    intros c Hc _; by apply (proj1 (Forall_forall _ _) Hp).
Qed.

(** An argument is a field of a word of the command, or a name that the
    pattern of such a field matches. *)
Lemma expand_command_from g ws a :
  a ∈ expand_command g ws ->
  ∃ w field, w ∈ ws ∧ field ∈ split (mark w) []
             ∧ (a = field ∨ (has_pattern field = true ∧ a ∈ g field)).
Proof.
  unfold expand_command, expand_word. intros Ha.
  apply list_elem_of_bind in Ha as (w & Ha & Hw).
  apply list_elem_of_bind in Ha as (field & Ha & Hfield).
  exists w, field. split; [ exact Hw | ]. split; [ exact Hfield | ].
  unfold pathname_expansion in Ha. destruct (has_pattern field) eqn:Hpat.
  - destruct (g field) as [|x l] eqn:Hg.
    + apply list_elem_of_singleton in Ha. by left.
    + right. by split.
  - apply list_elem_of_singleton in Ha. by left.
Qed.

Ltac literal_chars :=
  simpl; repeat (constructor; [ reflexivity | ]); constructor.

(** The literal parts of the script's command have no white space. *)
Lemma nbconvert_words_clean sp : Forall (Forall clean_part) (nbconvert_words sp).
Proof.
  unfold nbconvert_words.
  repeat (constructor;
          [ repeat (constructor;
                    [ first [ exact Logic.I | unfold clean_part, no_ifs; literal_chars ] | ]);
            constructor | ]).
  constructor.
Qed.

(** They have no pattern character either. *)
Lemma nbconvert_words_plain sp :
  no_glob sp -> Forall (Forall plain_part) (nbconvert_words sp).
Proof.
  intros Hsp. unfold nbconvert_words.
  repeat (constructor;
          [ repeat (constructor;
                    [ first [ exact Hsp | unfold plain_part, no_glob; literal_chars ] | ]);
            constructor | ]).
  constructor.
Qed.

(** X16: an argument of the command has white space in it only if it is a
    file name that a pattern matched: the unquoted [${SCRIPTPATH}] is
    split at every white space, and what is left of it is taken for a
    pattern when it has a pattern character. *)
Theorem white_space_comes_from_patterns h a :
  a ∈ argv h ->
  no_ifs a ∨ ∃ pat, no_ifs pat ∧ has_pattern pat = true ∧ a ∈ glob h pat.
Proof.
  intros Ha. apply expand_command_from in Ha as (w & field & Hw & Hfield & Ha).
  assert (Hclean : no_ifs field).
  { apply (proj1 (Forall_forall _ _) (fields_clean w
             (proj1 (Forall_forall _ _) (nbconvert_words_clean _) w Hw))).
    exact Hfield. }
  destruct Ha as [-> | [Hpat Ha]]; [ by left | right ].
  exists field. auto.
Qed.

Lemma white_space_comes_from_patterns_witness :
  no_ifs "/srv/g/a b/read_display_uw_hsrl_scanning.ipynb"
  ∨ ∃ pat, no_ifs pat ∧ has_pattern pat = true
           ∧ "/srv/g/a b/read_display_uw_hsrl_scanning.ipynb" ∈ glob Cases.star_host pat.
Proof.
  apply (white_space_comes_from_patterns Cases.star_host).
  apply (list_elem_of_lookup_2 _ 4%nat). vm_compute. reflexivity.
Defined.

Lemma strip_prefix_Some p s x : strip_prefix p s = Some x -> s = p +:+ x.
Proof.
  revert s. induction p as [|a p IH]; intros s; simpl.
  - by intros [= ->].
  - destruct s as [|b s]; [ discriminate | ].
    destruct (Ascii.eqb a b) eqn:E; [ | discriminate ].
    apply Ascii.eqb_eq in E as ->. intros H. apply IH in H as ->. reflexivity.
Qed.

Lemma no_ifs_app_r p x : no_ifs (p +:+ x) -> no_ifs x.
Proof.
  unfold no_ifs. rewrite list_ascii_of_string_app. intros H.
  by apply Forall_app in H as [_ H].
Qed.

(** X17: when the path of the script's directory has no pattern
    character, the output directory handed to nbconvert has no white
    space in its path; so, when the path of the script's directory has
    white space, the output directory is not the script's directory. *)
Theorem output_dir_has_no_white_space h x :
  no_glob (SCRIPTPATH h) ->
  output_dir (argv h) = Some x ->
  no_ifs x ∧ (¬ no_ifs (SCRIPTPATH h) -> x ≠ SCRIPTPATH h).
Proof.
  intros Hg Hx. assert (Hclean : no_ifs x).
  { unfold output_dir in Hx. apply last_Some in Hx as [l' Hl'].
    assert (Hin : x ∈ omap (strip_prefix "--output-dir=") (argv h)).
    { rewrite Hl'. apply elem_of_app. right. by apply list_elem_of_singleton. }
    apply list_elem_of_omap in Hin as (a & Ha & Hstrip).
    apply strip_prefix_Some in Hstrip as ->.
    apply (no_ifs_app_r "--output-dir=").
    apply expand_command_from in Ha as (w & field & Hw & Hfield & Ha).
    pose proof (proj1 (Forall_forall _ _) (fields_clean w
                  (proj1 (Forall_forall _ _) (nbconvert_words_clean _) w Hw))
                  field Hfield) as Hc.
    pose proof (proj1 (Forall_forall _ _) (fields_plain w
                  (proj1 (Forall_forall _ _) (nbconvert_words_plain _ Hg) w Hw))
                  field Hfield) as Hp.
    destruct Ha as [-> | [Hpat _]]; [ exact Hc | ].
    rewrite (has_pattern_false field Hp) in Hpat. discriminate. }
  split; [ exact Hclean | ]. intros Hsp ->. by apply Hsp.
Qed.

Lemma output_dir_has_no_white_space_witness :
  no_ifs "/srv/hsrl"
  ∧ (¬ no_ifs (SCRIPTPATH Sample.spaced_host) ->
     "/srv/hsrl" ≠ SCRIPTPATH Sample.spaced_host).
Proof.
  apply (output_dir_has_no_white_space Sample.spaced_host "/srv/hsrl").
  - unfold no_glob. vm_compute. repeat (constructor; [ reflexivity | ]). constructor.
  - vm_compute. reflexivity.
Defined.

End ScriptPaths.

(** * The calls of a run, in order *)

Section Does.

Context (lib : Lib).

Lemma skel_push st c : skel (push st c) = (skel st ++ [skeleton c])%list.
Proof. unfold skel, calls, push. simpl. by rewrite !fmap_app. Qed.

Lemma does_ret {A} (a : A) : does [] (mret a).
Proof. intros st. rewrite wp_ret. by rewrite app_nil_r. Qed.

Lemma does_raise {A} L (e : exn) : does L (@raise A e).
Proof.
  intros st. rewrite wp_raise. exists []. split; [ apply prefix_nil | ].
  by rewrite app_nil_r.
Qed.

Lemma does_perform c c' : skeleton c = c' -> does [c'] (perform lib c).
Proof.
  intros <- st. rewrite wp_perform. destruct (fault lib _ c).
  - exists [skeleton c]. split; [ reflexivity | apply skel_push ].
  - apply skel_push.
Qed.

Lemma does_perform_bind {B} c c' L (k : unit -> M B) :
  skeleton c = c' -> does L (k ()) -> does (c' :: L) (perform lib c ≫= k).
Proof.
  intros <- Hk st. rewrite wp_bind, wp_perform. destruct (fault lib _ c).
  - exists [skeleton c]. split; [ by apply prefix_cons, prefix_nil | apply skel_push ].
  - eapply wp_mono; [ | | apply (Hk (push st c)) ]; simpl.
    + intros _ s ->. by rewrite skel_push, <- app_assoc.
    + intros _ s (L' & Hpre & ->). exists (skeleton c :: L').
      split; [ by apply prefix_cons | ]. by rewrite skel_push, <- app_assoc.
Qed.

Lemma does_ret_bind {A B} L (a : A) (k : A -> M B) :
  does L (k a) -> does L (mret a ≫= k).
Proof. intros Hk st. rewrite wp_bind, wp_ret. apply Hk. Qed.

Lemma does_raise_bind {A B} L (e : exn) (k : A -> M B) : does L (raise e ≫= k).
Proof.
  intros st. rewrite wp_bind, wp_raise. exists []. split; [ apply prefix_nil | ].
  by rewrite app_nil_r.
Qed.

Lemma does_get_fs_bind {B} L (k : gmap string content -> M B) :
  (∀ f, does L (k f)) -> does L (get_fs ≫= k).
Proof. intros Hk st. rewrite wp_bind, wp_get_fs. apply Hk. Qed.

Lemma does_assoc {A B C} L (m : M A) (k1 : A -> M B) (k2 : B -> M C) :
  does L (m ≫= λ a, k1 a ≫= k2) -> does L ((m ≫= k1) ≫= k2).
Proof.
  intros H st. specialize (H st). rewrite wp_bind in H. rewrite !wp_bind.
  eapply wp_mono; [ | | exact H ]; simpl; [ | auto ].
  intros a s Hs. by rewrite wp_bind in Hs.
Qed.

Lemma does_getvar_bind {B} L ds name (k : dataarray -> M B) :
  (∀ v, does L (k (array_of ds name v))) ->
  does L (getvar ds name ≫= k).
Proof.
  intros Hk. unfold getvar.
  destruct (ds_vars ds !! name) as [v|]; [ apply does_ret_bind, Hk | ].
  destruct (ds_coords ds !! name) as [v|]; [ apply does_ret_bind, Hk | ].
  apply does_raise_bind.
Qed.

End Does.

Ltac does_step :=
  lazymatch goal with
  | |- does _ ((_ ≫= _) ≫= _) => apply does_assoc
  | |- does _ (perform _ _ ≫= _) => apply does_perform_bind; [ reflexivity | ]
  | |- does _ (mret _ ≫= _) => apply does_ret_bind
  | |- does _ (raise _ ≫= _) => apply does_raise_bind
  | |- does _ (get_fs ≫= _) => apply does_get_fs_bind; intros ?
  | |- does _ (getvar _ _ ≫= _) => apply does_getvar_bind; intros ?
  | |- does _ ((match ?x with _ => _ end) ≫= _) => destruct x
  | |- does _ (perform _ _) => apply does_perform; reflexivity
  | |- does _ (mret _) => apply does_ret
  | |- does _ (raise _) => apply does_raise
  | |- does _ (match ?x with _ => _ end) => destruct x
  end.

Ltac does_walk := repeat (does_step; cbv beta iota).

Section DoesCells.

Context (lib : Lib).

(** Cells 3 to 17 make the calls of [rest_calls], in that order, and stop
    at the first that raises. *)
Lemma cells_3_to_17_does p : does (rest_calls p) (cells_3_to_17 lib p).
Proof.
  unfold cells_3_to_17, cell3, cell5, cell7, cell9, cell11, cell13, cell15, cell17,
    geo_plot, show_layout, mean_scanning, scatter_plot, import_, display, getattr,
    hvplot, opts_plot, opts_layout, cols, sel, where_, mean, open_dataset.
  unfold rest_calls, geo4_calls, geo_calls, layout_calls, geophysical_variables.
  cbn [app fmap list_fmap]. cbv beta iota.
  does_walk.
Qed.

Lemma skel_write st p c :
  skel {| fs := <[p := c]> (fs st); trace := trace st |} = skel st.
Proof. reflexivity. Qed.

Lemma skel_init f : skel (init f) = [].
Proof. reflexivity. Qed.

Ltac skel_now :=
  rewrite ?skel_write, ?skel_push, ?skel_write, ?skel_push, ?skel_push, ?skel_init;
  simpl.

Ltac prefix_now := eexists; split; [ | skel_now; reflexivity ]; eexists; reflexivity.

(** Cell 1 makes the calls of [cell1_calls], in that order, and stops at
    the first that raises. *)
Lemma cell1_does os f p :
  l1b_path os = Ok p ->
  wp (cell1 lib os)
    (λ q st, q = p ∧ skel st = cell1_calls p (bool_decide (is_Some (f !! p))))
    (λ _ st, ∃ L', L' `prefix_of` cell1_calls p (bool_decide (is_Some (f !! p)))
                   ∧ skel st = L')
    (init f).
Proof.
  intros Hp. unfold cell1, import_, download_step, path_exists, urlretrieve, py_int, print.
  unfold cell1_calls.
  destruct (f !! p) as [c0|] eqn:Hf.
  - rewrite bool_decide_eq_true_2 by eauto.
    wp_call; [ prefix_now | ]. wp_call; [ prefix_now | ].
    wp_pure. rewrite Hp. wp_call; [ prefix_now | ].
    wp_pure. simpl fs. rewrite Hf, bool_decide_eq_true_2 by eauto. wp_pure.
    split; [ reflexivity | ]. skel_now. reflexivity.
  - rewrite bool_decide_eq_false_2 by (intros [x Hx]; discriminate).
    wp_call; [ prefix_now | ]. wp_call; [ prefix_now | ].
    wp_pure. rewrite Hp. wp_call; [ prefix_now | ].
    wp_pure. simpl fs. rewrite Hf.
    rewrite bool_decide_eq_false_2 by (intros [x Hx]; discriminate).
    wp_call; [ prefix_now | ].
    destruct (remote lib remote_l1b_url_str) as [r|]; wp_pure; [ | prefix_now ].
    destruct (content_length r); wp_pure; [ | prefix_now ].
    wp_call; [ prefix_now | ]. wp_pure.
    split; [ reflexivity | ]. skel_now. reflexivity.
Qed.

(** The notebook makes the calls of [run_calls], in that order, and stops
    at the first that raises. *)
Lemma notebook_does os f p :
  l1b_path os = Ok p ->
  wp (notebook lib os)
    (λ _ st, skel st = run_calls p (bool_decide (is_Some (f !! p))))
    (λ _ st, ∃ L', L' `prefix_of` run_calls p (bool_decide (is_Some (f !! p)))
                   ∧ skel st = L')
    (init f).
Proof.
  intros Hp. unfold notebook, run_calls. rewrite wp_bind.
  eapply wp_mono; [ | | apply (cell1_does os f p Hp) ]; cbv beta.
  - intros q s [-> Hs].
    eapply wp_mono; [ | | apply (cells_3_to_17_does p s) ]; cbv beta.
    + intros _ s' Hs'. by rewrite Hs', Hs.
    + intros e s' (L' & Hpre & Hs'). rewrite Hs', Hs.
      eexists. split; [ | reflexivity ]. by apply prefix_app.
  - intros e s (L' & Hpre & Hs). exists L'. split; [ | exact Hs ].
    by apply prefix_app_r.
Qed.

Lemma opened_cons c cs :
  opened (c :: cs)
  = match c with COpenDataset p g => (p, g) :: opened cs | _ => opened cs end.
Proof. by destruct c. Qed.

Lemma opened_skeleton cs : opened (skeleton <$> cs) = opened cs.
Proof.
  induction cs as [|c cs IH]; [ reflexivity | ].
  rewrite fmap_cons, !opened_cons, IH. by destruct c.
Qed.

Lemma opened_run_calls p cached :
  opened (run_calls p cached)
  = [(p, "vertical_stare"); (p, "horizontal_stare"); (p, "scanning")].
Proof. destruct cached; reflexivity. Qed.

Lemma opened_prefix cs1 cs2 :
  cs1 `prefix_of` cs2 -> opened cs1 `prefix_of` opened cs2.
Proof. intros [k ->]. unfold opened. rewrite omap_app. by eexists. Qed.

End DoesCells.

(** X18: the library calls of a run are a fixed sequence cut at the first
    failure.  Up to the labels that come from the data (plot titles,
    colour-bar labels, the size printed), a run that returns makes
    exactly the calls of [run_calls]: those of cell 1, with the download
    and the print when the file is not cached, then those of cells 3 to
    17; a run that raises makes the calls of a prefix of that list. *)
Theorem calls_of_a_run lib os f p :
  l1b_path os = Ok p ->
  skel (run lib os f).2 `prefix_of` run_calls p (bool_decide (is_Some (f !! p)))
  ∧ ((run lib os f).1 = Ok () ->
     skel (run lib os f).2 = run_calls p (bool_decide (is_Some (f !! p)))).
Proof.
  intros Hp. unfold run.
  apply (run_as_wp (notebook lib os)
           (λ res st, skel st `prefix_of` run_calls p (bool_decide (is_Some (f !! p)))
                      ∧ (res = Ok () ->
                         skel st = run_calls p (bool_decide (is_Some (f !! p)))))).
  eapply wp_mono; [ | | apply (notebook_does lib os f p Hp) ]; cbv beta.
  - intros [] st Hst. by rewrite Hst.
  - intros e st (L' & Hpre & Hst). rewrite Hst. split; [ exact Hpre | discriminate ].
Qed.

Lemma calls_of_a_run_witness :
  skel (run Sample.lib Sample.alice ∅).2
    `prefix_of` run_calls Sample.alice_l1b
                  (bool_decide (is_Some ((∅ : gmap string content) !! Sample.alice_l1b)))
  ∧ skel (run Sample.lib Sample.alice ∅).2
    = run_calls Sample.alice_l1b
        (bool_decide (is_Some ((∅ : gmap string content) !! Sample.alice_l1b))).
Proof.
  destruct (calls_of_a_run Sample.lib Sample.alice ∅ Sample.alice_l1b) as [H1 H2];
    [ vm_compute; reflexivity | ].
  split; [ exact H1 | apply H2; vm_compute; reflexivity ].
Defined.

(** X19: a run that returns opens the data file three times, for the
    groups vertical_stare, horizontal_stare and scanning in that order,
    and opens nothing else; a run that raises has opened the first few of
    these. *)
Theorem datasets_opened lib os f p :
  l1b_path os = Ok p ->
  opened (calls (run lib os f).2)
    `prefix_of` [(p, "vertical_stare"); (p, "horizontal_stare"); (p, "scanning")]
  ∧ ((run lib os f).1 = Ok () ->
     opened (calls (run lib os f).2)
     = [(p, "vertical_stare"); (p, "horizontal_stare"); (p, "scanning")]).
Proof.
  intros Hp. unfold run.
  rewrite <- (opened_run_calls p (bool_decide (is_Some (f !! p)))).
  apply (run_as_wp (notebook lib os)
           (λ res st,
              opened (calls st)
                `prefix_of` opened (run_calls p (bool_decide (is_Some (f !! p))))
              ∧ (res = Ok () ->
                 opened (calls st)
                 = opened (run_calls p (bool_decide (is_Some (f !! p))))))).
  eapply wp_mono; [ | | apply (notebook_does lib os f p Hp) ]; cbv beta.
  - intros [] st Hst. rewrite <- (opened_skeleton (calls st)).
    unfold skel in Hst. by rewrite Hst.
  - intros e st (L' & Hpre & Hst). rewrite <- (opened_skeleton (calls st)).
    unfold skel in Hst. rewrite Hst. split; [ by apply opened_prefix | discriminate ].
Qed.

Lemma datasets_opened_witness :
  opened (calls (run Sample.lib Sample.alice ∅).2)
    `prefix_of` [ (Sample.alice_l1b, "vertical_stare");
                  (Sample.alice_l1b, "horizontal_stare");
                  (Sample.alice_l1b, "scanning") ]
  ∧ opened (calls (run Sample.lib Sample.alice ∅).2)
    = [ (Sample.alice_l1b, "vertical_stare");
        (Sample.alice_l1b, "horizontal_stare");
        (Sample.alice_l1b, "scanning") ].
Proof.
  destruct (datasets_opened Sample.lib Sample.alice ∅ Sample.alice_l1b) as [H1 H2];
    [ vm_compute; reflexivity | ].
  split; [ exact H1 | apply H2; vm_compute; reflexivity ].
Defined.
